(** * CPU counting utility: bit-field extraction, topology probe, aggregation

    A shallow embedding of [cpucount_linux.cpp].  Machine integers are
    modelled as [Z] with their wrap-around written out; the fixed-size C
    arrays are lists read and written by index, and an access outside the
    array (undefined behaviour in C) makes the embedded function return
    [None]. *)

From Stdlib Require Import ZArith Lia Bool.
From stdpp Require Import base option list gmap strings.

Local Open Scope Z_scope.

(** ** Machine words *)

(** Values of [unsigned int] live in [[0, 2^32)]. *)
Definition wrap32 (x : Z) : Z := x mod 2 ^ 32.

(** The 16-bit sub-register ([ax], [cx]) of a 32-bit register. *)
Definition low16 (x : Z) : Z := x mod 2 ^ 16.

(** Writing a 16-bit sub-register keeps the upper half of the register. *)
Definition set_low16 (x v : Z) : Z := x - low16 x + low16 v.

(** [a << n] on a 32-bit operand.  The program is x86-only and the shift is
    the [shl] instruction, which uses the count modulo 32; C leaves counts
    of 32 and more undefined.  [CPUCount] reaches the count 32 in the mask
    of the core id (shift 16, width 16), where the instruction gives
    [0xff << 32 = 0xff]. *)
Definition shl32 (a n : Z) : Z := wrap32 (Z.shiftl a (n mod 32)).

(** ** Constants of the source *)

Definition CORES_PER_PROCPAK : Z := 0xFC000000.
Definition NUM_LOGICAL_BITS : Z := 0x00FF0000.
Definition INITIAL_APIC_ID_BITS : Z := 0xFF000000.
Definition MT_BIT : Z := 0x10000000.

(** The status flag returned by [CPUCount]. *)
Inductive status : Type :=
  | USER_CONFIG_ISSUE
  | SINGLE_CORE_AND_HT_NOT_CAPABLE
  | SINGLE_CORE_AND_HT_ENABLED
  | SINGLE_CORE_AND_HT_DISABLED
  | MULTI_CORE_AND_HT_NOT_CAPABLE
  | MULTI_CORE_AND_HT_ENABLED
  | MULTI_CORE_AND_HT_DISABLED.

Definition status_code (s : status) : Z :=
  match s with
  | USER_CONFIG_ISSUE => 0
  | SINGLE_CORE_AND_HT_NOT_CAPABLE => 1
  | SINGLE_CORE_AND_HT_ENABLED => 2
  | SINGLE_CORE_AND_HT_DISABLED => 3
  | MULTI_CORE_AND_HT_NOT_CAPABLE => 4
  | MULTI_CORE_AND_HT_ENABLED => 5
  | MULTI_CORE_AND_HT_DISABLED => 6
  end.

(** ** find_maskwidth: the inline assembly, instruction by instruction *)

(** The registers and the flag the assembly touches. *)
Record regs : Type := Regs { eax : Z; ecx : Z; zf : bool }.

(** [xorl %ecx, %ecx] *)
Definition xorl_ecx_ecx (r : regs) : regs :=
  {| eax := eax r; ecx := 0; zf := true |}.

(** [decl %eax] *)
Definition decl_eax (r : regs) : regs :=
  let v := wrap32 (eax r - 1) in
  {| eax := v; ecx := ecx r; zf := v =? 0 |}.

(** [bsrw %ax, %cx]: index of the highest set bit of [ax] into [cx]; when
    [ax] is zero the flag is set and [cx] keeps its value (the behaviour of
    the processors; the source relies on it for a count of 1, where [cx]
    still holds the 0 of the [xorl]). *)
Definition bsrw_ax_cx (r : regs) : regs :=
  let ax := low16 (eax r) in
  if ax =? 0
  then {| eax := eax r; ecx := ecx r; zf := true |}
  else {| eax := eax r; ecx := set_low16 (ecx r) (Z.log2 ax); zf := false |}.

(** [incw %cx] *)
Definition incw_cx (r : regs) : regs :=
  let v := low16 (low16 (ecx r) + 1) in
  {| eax := eax r; ecx := set_low16 (ecx r) v; zf := v =? 0 |}.

(** The first [asm] statement: input [count] in [eax], output [maskWidth]
    from [ecx].  The pushes do not change a register. *)
Definition asm_clear (r : regs) : regs := xorl_ecx_ecx r.

(** The second [asm] statement names no input operand, so [count] is not
    handed to it: what it finds in [eax] is what the compiled code between
    the two statements leaves there.  That code stores the output operand
    of the first statement into [maskWidth], moving [ecx] through [eax]. *)
Definition store_maskWidth (r : regs) : regs :=
  {| eax := ecx r; ecx := ecx r; zf := zf r |}.

(** The second [asm] statement: [decl], [bsrw], and [jz next] skipping the
    increment. *)
Definition asm_scan (r : regs) : regs :=
  let r2 := decl_eax r in
  let r3 := bsrw_ax_cx r2 in
  if zf r3 then r3 else incw_cx r3.

(** [find_maskwidth]: the result is the output operand [ecx] of the second
    statement (the third only pops). *)
Definition find_maskwidth (countItem : Z) : Z :=
  let r0 := {| eax := countItem; ecx := 0; zf := false |} in
  let r1 := asm_clear r0 in
  let r1' := store_maskWidth r1 in
  let r4 := asm_scan r1' in
  ecx r4.

(** The width the specification asks for, in its words: the position of
    the highest set bit of [maxCount - 1], plus 1, and 0 when
    [maxCount - 1] is 0. *)
Definition maskWidth_spec (maxCount : Z) : Z :=
  if maxCount - 1 =? 0 then 0 else Z.log2 (maxCount - 1) + 1.

(** ** getSubID *)

Definition getSubID (fullID maxSubIDValue shiftCount : Z) : Z :=
  let maskWidth := find_maskwidth maxSubIDValue in
  let maskBits :=
    Z.lxor (shl32 0xff shiftCount)
           (shl32 0xff (wrap32 (shiftCount + maskWidth))) in
  Z.land fullID maskBits.

(** Both functions return [unsigned int]: the source has no way to refuse
    an argument.  [call_result] names the two outcomes a caller could
    observe; the source only ever produces the first. *)
Inductive contract_error : Type := InvalidArgument.

Inductive call_result : Type :=
  | Returned (v : Z)
  | Signalled (e : contract_error).

Definition call_find_maskwidth (countItem : Z) : call_result :=
  Returned (find_maskwidth countItem).

Definition call_getSubID (fullID maxSubIDValue shiftCount : Z) : call_result :=
  Returned (getSubID fullID maxSubIDValue shiftCount).

(** A contiguous mask of [width] bits positioned at [shiftCount]. *)
Definition field_mask (width shiftCount : Z) : Z :=
  Z.shiftl (Z.ones width) shiftCount.

(** The sub-field the specification asks for, in its words: [rawId] with
    only the [maskWidth maxCount] bits at [shiftCount] retained. *)
Definition extractSubfield_spec (rawId maxCount shiftCount : Z) : Z :=
  Z.land rawId (field_mask (maskWidth_spec maxCount) shiftCount).

(** [x] has no bit set outside [[shiftCount, shiftCount + width)]. *)
Definition within_field (x width shiftCount : Z) : Prop :=
  forall i, Z.testbit x i = true -> shiftCount <= i < shiftCount + width.

(** ** Arrays

    A C array is the list of its slots.  [uninitialised n] stands for a
    fresh local array of [n] slots: its contents are indeterminate, and
    the bucket loops below never read a slot they have not written (see
    [countAvailableCores_loop_spec]), so the fill value does not matter. *)
Definition uninitialised (n : nat) : list Z := replicate n 0.

(** ** The bucket scan shared by both counting functions

    [for (i = 0; i < total; i++) if (key == bucket[i]) { found = 1; break; }]
    run from position [i] with [steps = total - i] iterations left; returns
    the found flag and the value of [i] after the loop. *)
Fixpoint scan_bucket (key : Z) (bucket : list Z) (i steps : nat)
  : option (bool * nat) :=
  match steps with
  | O => Some (false, i)
  | S steps' =>
      b ← bucket !! i;
      if bool_decide (key = b) then Some (true, i)
      else scan_bucket key bucket (S i) steps'
  end.

(** ** countAvailableCores *)

(** The outer loop, from [procNum] with [steps = numLPEnabled - procNum]
    iterations left. *)
Fixpoint countAvailableCores_loop (tblPkgID tblCoreID : list Z)
    (procNum steps : nat) (CoreIDBucket : list Z) (total : nat)
  : option nat :=
  match steps with
  | O => Some total
  | S steps' =>
      p ← tblPkgID !! procNum;
      c ← tblCoreID !! procNum;
      '(coreIDFound, i) ← scan_bucket (Z.lor p c) CoreIDBucket 0 total;
      if (coreIDFound : bool)
      then countAvailableCores_loop tblPkgID tblCoreID (S procNum) steps'
             CoreIDBucket total
      else if decide (i < length CoreIDBucket)%nat
      then countAvailableCores_loop tblPkgID tblCoreID (S procNum) steps'
             (<[i := Z.lor p c]> CoreIDBucket) (S total)
      else None
  end.

Definition countAvailableCores (tblPkgID tblCoreID : list Z)
    (numLPEnabled : nat) : option nat :=
  let CoreIDBucket := uninitialised 256 in
  p0 ← tblPkgID !! 0%nat;
  c0 ← tblCoreID !! 0%nat;
  countAvailableCores_loop tblPkgID tblCoreID 1 (numLPEnabled - 1)
    (<[0%nat := Z.lor p0 c0]> CoreIDBucket) 1.

(** ** countPhysicalPacks *)

Fixpoint countPhysicalPacks_loop (tblPkgID : list Z)
    (procNum steps : nat) (packageIDBucket : list Z) (total : nat)
  : option nat :=
  match steps with
  | O => Some total
  | S steps' =>
      p ← tblPkgID !! procNum;
      '(packageIDFound, i) ← scan_bucket p packageIDBucket 0 total;
      if (packageIDFound : bool)
      then countPhysicalPacks_loop tblPkgID (S procNum) steps'
             packageIDBucket total
      else if decide (i < length packageIDBucket)%nat
      then countPhysicalPacks_loop tblPkgID (S procNum) steps'
             (<[i := p]> packageIDBucket) (S total)
      else None
  end.

Definition countPhysicalPacks (tblPkgID : list Z) (numLPEnabled : nat)
  : option nat :=
  let packageIDBucket := uninitialised 256 in
  p0 ← tblPkgID !! 0%nat;
  countPhysicalPacks_loop tblPkgID 1 (numLPEnabled - 1)
    (<[0%nat := p0]> packageIDBucket) 1.

(** The keys the two functions deduplicate, for the first [n] records. *)
Definition core_keys (tblPkgID tblCoreID : list Z) (n : nat) : list Z :=
  take n (zip_with Z.lor tblPkgID tblCoreID).

Definition pack_keys (tblPkgID : list Z) (n : nat) : list Z :=
  take n tblPkgID.

(** The number of distinct values in a list. *)
Definition distinct (l : list Z) : nat := size (list_to_set l : gset Z).

(** ** The classification at the end of CPUCount

    [*totAvailCore] and [*totPhysPack] are [int], [numLPEnabled] is
    [unsigned int]: the comparison [numLPEnabled > *totAvailCore] converts
    its right operand to [unsigned int]. *)
Definition CPUCount_classify
    (totAvailCore totPhysPack logicalPerCore numLPEnabled : Z) : status :=
  if totAvailCore >? totPhysPack then
    if logicalPerCore =? 1 then MULTI_CORE_AND_HT_NOT_CAPABLE
    else if numLPEnabled >? wrap32 totAvailCore then MULTI_CORE_AND_HT_ENABLED
    else MULTI_CORE_AND_HT_DISABLED
  else
    if logicalPerCore =? 1 then SINGLE_CORE_AND_HT_NOT_CAPABLE
    else if numLPEnabled >? wrap32 totAvailCore then SINGLE_CORE_AND_HT_ENABLED
    else SINGLE_CORE_AND_HT_DISABLED.

(** ** The platform: CPUID and the scheduler

    [cpuid p cpu leaf subleaf] is what the CPUID instruction returns on
    logical processor [cpu]; [setaffinity_ok p k] tells whether the [k]-th
    call of [sched_setaffinity] made by the process is accepted. *)
Record cpuid_regs : Type :=
  CpuidRegs { r_eax : Z; r_ebx : Z; r_ecx : Z; r_edx : Z }.

Record platform : Type := Platform {
  numProcessors : Z;
  entry_cpu : nat;
  cpuid : nat -> Z -> Z -> cpuid_regs;
  setaffinity_ok : nat -> bool
}.

(** [cpu_set_t] is a bit set of [CPU_SETSIZE] processors. *)
Definition CPU_SETSIZE : nat := 1024.
Definition CPU_ZERO : Z := 0.
Definition CPU_SET (cpu : nat) (set : Z) : Z :=
  if decide (cpu < CPU_SETSIZE)%nat then Z.setbit set (Z.of_nat cpu) else set.
Definition CPU_ISSET (cpu : nat) (set : Z) : bool :=
  if decide (cpu < CPU_SETSIZE)%nat then Z.testbit set (Z.of_nat cpu) else false.

(** The scheduler state of the process: its affinity mask and the number
    of [sched_setaffinity] calls made so far. *)
Record os_state : Type := OsState { affinity : Z; calls : nat }.

(** [CPUCount] ignores the status of [sched_getaffinity]; the call is
    taken to succeed and yields the current mask. *)
Definition misc_sched_getaffinity (os : os_state) : Z := affinity os.

(** An accepted call installs the mask, a refused one ([-1]) changes
    nothing. *)
Definition misc_sched_setaffinity (p : platform) (affinity_mask : Z)
    (os : os_state) : Z * os_state :=
  if setaffinity_ok p (calls os)
  then (0, {| affinity := affinity_mask; calls := S (calls os) |})
  else (-1, {| affinity := affinity os; calls := S (calls os) |}).

(** Conversion of an [unsigned int] to [int]. *)
Definition to_int (x : Z) : Z := if x <? 2 ^ 31 then x else x - 2 ^ 32.

Definition get_apic_id (p : platform) (cpu : nat) : Z :=
  Z.shiftr (Z.land (r_ebx (cpuid p cpu 1 0)) INITIAL_APIC_ID_BITS) 24.

Definition get_max_input_value (p : platform) (cpu : nat) : Z :=
  to_int (r_eax (cpuid p cpu 0 0)).

Definition GenuineIntel (p : platform) (cpu : nat) : bool :=
  let r := cpuid p cpu 0 0 in
  (r_ebx r =? 0x756e6547) && (r_edx r =? 0x49656e69) && (r_ecx r =? 0x6c65746e).

Definition MTSupported (p : platform) (cpu : nat) : Z :=
  if GenuineIntel p cpu then
    if get_max_input_value p cpu >=? 1
    then to_int (Z.land (r_edx (cpuid p cpu 1 0)) MT_BIT)
    else 0
  else 0.

Definition logicalProcessorsPerPackage (p : platform) (cpu : nat) : Z :=
  if MTSupported p cpu =? 0 then 1
  else to_int (Z.shiftr (Z.land (r_ebx (cpuid p cpu 1 0)) NUM_LOGICAL_BITS) 16).

Definition multiCoresPerProcPak (p : platform) (cpu : nat) : Z :=
  if get_max_input_value p cpu >=? 4
  then to_int (wrap32
         (Z.shiftr (Z.land (r_eax (cpuid p cpu 4 0)) CORES_PER_PROCPAK) 26 + 1))
  else 1.

(** ** CPUCount *)

(** One line of [procData]: what the probe recorded for a logical
    processor, together with the slot [index] of the three tables the
    values were stored in.  The five fields after [index] are the arguments
    of the [sprintf] that formats the line. *)
Record LogicalProcessorRecord : Type := LPRecord {
  index : nat;
  affinityMask : Z;
  apicId : Z;
  packageId : Z;
  coreId : Z;
  smtId : Z
}.

(** The locals of [CPUCount] that the probing loop updates. *)
Record probe : Type := Probe {
  tblPkgID : list Z;
  tblCoreID : list Z;
  tblSMTID : list Z;
  numLPEnabled : nat;
  procData : list LogicalProcessorRecord;
  os : os_state
}.

(** The caller's variables [CPUCount] writes through its pointers. *)
Record outputs : Type := Outputs {
  totAvailLogical : Z;
  totAvailCore : Z;
  totPhysPack : Z
}.

(** [for (i = 0; i < numProcessors; i++) if (CPU_ISSET(i, mask) == 0) return ...]:
    [false] when the loop returns early. *)
Fixpoint all_configured_enabled (sysAffinityMask : Z) (i steps : nat) : bool :=
  match steps with
  | O => true
  | S steps' =>
      if CPU_ISSET i sysAffinityMask
      then all_configured_enabled sysAffinityMask (S i) steps'
      else false
  end.

(** The body of [if (misc_sched_setaffinity(0, &currentCPU) == 0)]: the
    record of logical processor [j], read while the process is pinned to
    it. *)
Definition probe_record (p : platform)
    (logicalPerPack corePerPack logicalPerCore : Z) (j : nat)
  : LogicalProcessorRecord :=
  let apicID := get_apic_id p j in
  let smt := getSubID apicID (wrap32 logicalPerCore) 0 in
  let core := getSubID apicID (wrap32 corePerPack)
                (find_maskwidth (wrap32 logicalPerCore)) in
  let packageIDMask := shl32 0xff (find_maskwidth (wrap32 logicalPerPack)) in
  let pkg := Z.land apicID packageIDMask in
  {| index := j; affinityMask := shl32 1 (Z.of_nat j); apicId := apicID;
     packageId := pkg; coreId := core; smtId := smt |}.

(** The stores of that body: slot [j] of the three tables, the counter and
    the log. *)
Definition probe_store (st : probe) (r : LogicalProcessorRecord)
    (os' : os_state) : probe :=
  {| tblPkgID := <[index r := packageId r]> (tblPkgID st);
     tblCoreID := <[index r := coreId r]> (tblCoreID st);
     tblSMTID := <[index r := smtId r]> (tblSMTID st);
     numLPEnabled := S (numLPEnabled st);
     procData := procData st ++ [r];
     os := os' |}.

(** Only the scheduler state changes. *)
Definition with_os (st : probe) (os' : os_state) : probe :=
  {| tblPkgID := tblPkgID st; tblCoreID := tblCoreID st;
     tblSMTID := tblSMTID st; numLPEnabled := numLPEnabled st;
     procData := procData st; os := os' |}.

(** ** The text of the log

    [CPUCount] formats each record into [char tmp[256]] and appends it with
    [strcat] to [procData], which is [char procData[2048]] of [main].  The
    embedding keeps the records and the number of characters of each line:
    the 77 characters of the format outside its conversions, the hexadecimal
    digits of the two [%x] and the characters of the three [%d]. *)
Definition TMP_SIZE : nat := 256.
Definition PROCDATA_SIZE : nat := 2048.

(** Characters of [%x] for an [unsigned int]. *)
Definition hex_digits (x : Z) : nat :=
  if x <=? 0 then 1%nat else Z.to_nat (Z.log2 x / 4 + 1).

(** Characters of [%d] for a non-negative [int] below [2^31]. *)
Definition dec_digits (x : Z) : nat :=
  if x <? 10 then 1
  else if x <? 100 then 2
  else if x <? 1000 then 3
  else if x <? 10000 then 4
  else if x <? 100000 then 5
  else if x <? 1000000 then 6
  else if x <? 10000000 then 7
  else if x <? 100000000 then 8
  else if x <? 1000000000 then 9
  else 10.

(** Characters of [%d]: the argument is an [unsigned int] read as [int]. *)
Definition dec_length (x : Z) : nat :=
  let v := to_int x in
  if v <? 0 then S (dec_digits (- v)) else dec_digits v.

(** [strlen] of the line [sprintf] writes for a record. *)
Definition line_length (r : LogicalProcessorRecord) : nat :=
  (77 + hex_digits (affinityMask r) + hex_digits (apicId r)
   + dec_length (packageId r) + dec_length (coreId r)
   + dec_length (smtId r))%nat.

(** [strlen] of the log. *)
Definition strlen (log : list LogicalProcessorRecord) : nat :=
  foldr (fun r n => (line_length r + n)%nat) 0%nat log.

(** [while (j < numProcessors) { ... j++; }] with [steps = numProcessors - j]
    iterations left.  The three tables have 256 slots; a store beyond them
    is undefined, and so is a line that does not fit [tmp] with its
    terminator, or a log that does not fit [procData] with its terminator. *)
Fixpoint probe_loop (p : platform) (logicalPerPack corePerPack logicalPerCore : Z)
    (j steps : nat) (st : probe) : option probe :=
  match steps with
  | O => Some st
  | S steps' =>
      let currentCPU := CPU_SET j CPU_ZERO in
      let '(rc, os') := misc_sched_setaffinity p currentCPU (os st) in
      if rc =? 0 then
        let r := probe_record p logicalPerPack corePerPack logicalPerCore j in
        if decide (j < 256)%nat then
          if decide (line_length r < TMP_SIZE)%nat then
            if decide (strlen (procData st) + line_length r < PROCDATA_SIZE)%nat
            then
              probe_loop p logicalPerPack corePerPack logicalPerCore (S j) steps'
                (probe_store st r os')
            else None
          else None
        else None
      else
        probe_loop p logicalPerPack corePerPack logicalPerCore (S j) steps'
          (with_os st os')
  end.

(** The locals on entry: [numLPEnabled = 0], [procData[0] = 0]. *)
Definition probe_init (uPkg uCore uSMT : list Z) (os0 : os_state) : probe :=
  {| tblPkgID := uPkg; tblCoreID := uCore; tblSMTID := uSMT;
     numLPEnabled := 0; procData := []; os := os0 |}.

(** What a call of [CPUCount] leaves behind: the returned status, the
    caller's variables, and the final locals (tables, log, scheduler
    state). *)
Record run : Type := Run {
  result : status;
  out : outputs;
  final : probe
}.

(** [CPUCount] after [logicalPerPack] and [corePerPack] have been read.
    [uPkg], [uCore] and [uSMT] are the indeterminate initial contents of
    the three local tables: unlike the buckets, their slots can be read
    without having been written (when a pin fails).  [out0] holds the
    caller's variables and [os0] the scheduler state on entry. *)
Definition CPUCount_body (p : platform) (logicalPerPack corePerPack : Z)
    (uPkg uCore uSMT : list Z) (out0 : outputs) (os0 : os_state)
  : option run :=
  let st0 := probe_init uPkg uCore uSMT os0 in
  let out1 := {| totAvailLogical := totAvailLogical out0;
                 totAvailCore := 1; totPhysPack := 1 |} in
  let sysAffinityMask := misc_sched_getaffinity os0 in
  if negb (all_configured_enabled sysAffinityMask 0 (Z.to_nat (numProcessors p)))
  then Some {| result := USER_CONFIG_ISSUE; out := out1; final := st0 |}
  else if corePerPack <=? 0
  then Some {| result := USER_CONFIG_ISSUE; out := out1; final := st0 |}
  else
    let logicalPerCore := Z.quot logicalPerPack corePerPack in
    st ← probe_loop p logicalPerPack corePerPack logicalPerCore
           0 (Z.to_nat (numProcessors p)) st0;
    let '(_, os') := misc_sched_setaffinity p sysAffinityMask (os st) in
    let st' := with_os st os' in
    cores ← countAvailableCores (tblPkgID st) (tblCoreID st) (numLPEnabled st);
    packs ← countPhysicalPacks (tblPkgID st) (numLPEnabled st);
    let out2 := {| totAvailLogical := Z.of_nat (numLPEnabled st);
                   totAvailCore := Z.of_nat cores;
                   totPhysPack := Z.of_nat packs |} in
    Some {| result := CPUCount_classify (Z.of_nat cores) (Z.of_nat packs)
                        logicalPerCore (Z.of_nat (numLPEnabled st));
            out := out2; final := st' |}.

Definition CPUCount (p : platform) (uPkg uCore uSMT : list Z)
    (out0 : outputs) (os0 : os_state) : option run :=
  CPUCount_body p
    (logicalProcessorsPerPackage p (entry_cpu p))
    (multiCoresPerProcPak p (entry_cpu p))
    uPkg uCore uSMT out0 os0.

(** The table invariant: every record's index is unique and lies in
    [[0, numLPEnabled)], the range the counting functions read. *)
Definition table_invariant (st : probe) : Prop :=
  NoDup (index <$> procData st) /\
  Forall (fun r => (index r < numLPEnabled st)%nat) (procData st).

(** What the probing loop, run from [j] for [steps] iterations, appends to
    the log: each record is the one read on its own processor, and the
    slot [index] of each table holds its ids. *)
Definition recorded (p : platform)
    (logicalPerPack corePerPack logicalPerCore : Z)
    (j steps : nat) (st st' : probe) (r : LogicalProcessorRecord) : Prop :=
  r = probe_record p logicalPerPack corePerPack logicalPerCore (index r) /\
  (j <= index r < j + steps)%nat /\
  (index r < 256)%nat /\
  ((index r < length (tblPkgID st))%nat ->
   tblPkgID st' !! index r = Some (packageId r)) /\
  ((index r < length (tblCoreID st))%nat ->
   tblCoreID st' !! index r = Some (coreId r)) /\
  ((index r < length (tblSMTID st))%nat ->
   tblSMTID st' !! index r = Some (smtId r)).

(** ** A sample machine

    Two packages of two cores of two threads: eight logical processors
    whose initial APIC ids are 0..7 (bit 0 thread, bit 1 core, bit 2
    package); CPUID reports GenuineIntel, maximum leaf 4, Hyper-Threading,
    4 logical processors and 2 cores per package. *)
Definition sample_cpuid (cpu : nat) (leaf subleaf : Z) : cpuid_regs :=
  if leaf =? 0 then
    {| r_eax := 4; r_ebx := 0x756e6547; r_ecx := 0x6c65746e; r_edx := 0x49656e69 |}
  else if leaf =? 1 then
    {| r_eax := 0;
       r_ebx := Z.lor (Z.shiftl (Z.of_nat cpu) 24) (Z.shiftl 4 16);
       r_ecx := 0; r_edx := MT_BIT |}
  else if leaf =? 4 then
    {| r_eax := Z.shiftl 1 26; r_ebx := 0; r_ecx := 0; r_edx := 0 |}
  else {| r_eax := 0; r_ebx := 0; r_ecx := 0; r_edx := 0 |}.

Definition sample_machine (accepts : nat -> bool) : platform :=
  {| numProcessors := 8; entry_cpu := 0; cpuid := sample_cpuid;
     setaffinity_ok := accepts |}.

(** Every scheduler call is accepted. *)
Definition machine_ok : platform := sample_machine (fun _ => true).

(** The eight pins are accepted, the ninth call (the restore) is not. *)
Definition machine_restore_refused : platform :=
  sample_machine (fun k => (k <? 8)%nat).

(** The pin to processor 0 is refused, every later call is accepted. *)
Definition machine_pin0_refused : platform :=
  sample_machine (fun k => negb (k =? 0)%nat).

(** All eight processors enabled on entry. *)
Definition sample_os : os_state := {| affinity := 0xff; calls := 0 |}.

Definition caller_outputs : outputs :=
  {| totAvailLogical := 0; totAvailCore := 0; totPhysPack := 0 |}.

(** Stack contents standing for what the tables hold before any store. *)
Definition stale (fill : Z) : list Z := replicate 256 fill.

(** ** The pins the scheduler accepts

    In a run that enters the probing loop with [c0] scheduler calls made
    before, the pin to processor [j] is call number [c0 + j]. *)
Definition accepted_pins (p : platform) (c0 n : nat) : list nat :=
  List.filter (fun j => setaffinity_ok p (c0 + j)) (seq 0 n).

(** The keys [packageId | coreId] and the package ids of processors
    [0 .. n-1], as the probe computes them. *)
Definition machine_core_keys (p : platform)
    (logicalPerPack corePerPack logicalPerCore : Z) (n : nat) : list Z :=
  (fun j =>
     let r := probe_record p logicalPerPack corePerPack logicalPerCore j in
     Z.lor (packageId r) (coreId r)) <$> seq 0 n.

Definition machine_pack_keys (p : platform)
    (logicalPerPack corePerPack logicalPerCore : Z) (n : nat) : list Z :=
  (fun j =>
     packageId (probe_record p logicalPerPack corePerPack logicalPerCore j))
    <$> seq 0 n.

(** ** The report

    Standard output is the sequence of [printf] calls: the format literal
    as it is written in the source (escape sequences not expanded) and the
    arguments. *)
Inductive printf_arg : Type :=
  | IntArg (n : Z)
  | LogArg (log : list LogicalProcessorRecord)
  | BrandArg (leaves : list cpuid_regs).

Record printf_call : Type := Printf { format : string; args : list printf_arg }.

Definition say (text : string) : printf_call := Printf text [].

(** How the program ends: [exit(code)] or [return code] from [main], or
    the [abort] of a failed [assert]. *)
Inductive termination : Type :=
  | Exits (code : Z)
  | Aborts.

Definition printHeader : list printf_call :=
  [ say "\n----Counting Hardware Multi-threading Capabilities and Availability ---------- \n\n";
    say "This application displays information on three forms of hardware multi-threading\n";
    say "capability and availability. The three forms of capabilities are:\n";
    say "multi-processor (MP), multi-core (core), and Hyper-Threading Technology (HT).\n";
    say "\nHardware capability results represent the maximum number provided in hardware.\n";
    say "Note, Bios/OS or an experienced user can make configuration changes resulting in \n";
    say "less-than-full hardware capabilities being available to applications.\n";
    say "For the best result, the operator is responsible for configuring the BIOS/OS such that\n";
    say "full hardware multi-threading capabilities are enabled.\n";
    say "\n---------------------------------------------------------------------------- \n\n\n" ].

(** The literal of the configuration error is continued over two source
    lines; the second begins with a tab. *)
Definition user_config_message : string :=
  String.append
    "User Configuration Error: Not all logical processors in the system are enabled "
    (String (Ascii.ascii_of_nat 9)
       "while running this process. Please rerun this application after making corrections. \n").

(** [printAttributes]: the calls made and, when the function does not
    return, the exit code.  [SINGLE_CORE_AND_HT_DISABLED] has no [break]
    and runs on into the next case. *)
Definition printAttributes (sysAttributes totPhysPack : Z)
  : list printf_call * option Z :=
  let head := [say "\nCapabilities:\n\n"] in
  let tail := [if totPhysPack >? 1 then say "Yes\n" else say "No\n"] in
  let ht_enabled_single :=
    say "\tHyper-Threading Technology: Enabled  \n\tMulti-core: No \n\tMulti-processor: " in
  if sysAttributes =? status_code MULTI_CORE_AND_HT_NOT_CAPABLE then
    (head ++ [say "\tHyper-Threading Technology: Not capable  \n\tMulti-core: Yes \n\tMulti-processor: "]
          ++ tail, None)
  else if sysAttributes =? status_code SINGLE_CORE_AND_HT_NOT_CAPABLE then
    (head ++ [say "\tHyper-Threading Technology: Not capable  \n\tMulti-core: No \n\tMulti-processor: "]
          ++ tail, None)
  else if sysAttributes =? status_code SINGLE_CORE_AND_HT_DISABLED then
    (head ++ [say "\tHyper-Threading Technology: Disabled  \n\tMulti-core: No \n\tMulti-processor: ";
              ht_enabled_single]
          ++ tail, None)
  else if sysAttributes =? status_code SINGLE_CORE_AND_HT_ENABLED then
    (head ++ [ht_enabled_single] ++ tail, None)
  else if sysAttributes =? status_code MULTI_CORE_AND_HT_DISABLED then
    (head ++ [say "\tHyper-Threading Technology: Disabled  \n\tMulti-core: Yes \n\tMulti-processor: "]
          ++ tail, None)
  else if sysAttributes =? status_code MULTI_CORE_AND_HT_ENABLED then
    (head ++ [say "\tHyper-Threading Technology: Enabled  \n\tMulti-core: Yes \n\tMulti-processor: "]
          ++ tail, None)
  else if sysAttributes =? status_code USER_CONFIG_ISSUE then
    (head ++ [say user_config_message], Some 1)
  else
    (head ++ [say "Error: Unexpected return value.\n"], Some 1).

(** [printCapabilities]; its last parameter is named [logicalPerPack] in
    the source and receives [logicalPerCore] from [main]. *)
Definition printCapabilities
    (totPhysPack totAvailCore totAvailLogical corePerPack logicalPerPack : Z)
  : list printf_call :=
  [ say "\n\nHardware capability and its availability to applications: \n";
    Printf "\n  System wide availability: %d physical processors, %d cores, %d logical processors\n"
      [IntArg totPhysPack; IntArg totAvailCore; IntArg totAvailLogical];
    Printf "  Multi-core capabililty : %d cores per package \n" [IntArg corePerPack];
    Printf "  HT capability: %d logical processors per core \n" [IntArg logicalPerPack];
    if totPhysPack * corePerPack >? totAvailCore
    then say "\n  Not all cores in the system are enabled for this application.\n"
    else say "\n  All cores in the system are enabled for this application.\n" ].

Definition printAffinity (procData : list LogicalProcessorRecord)
  : list printf_call :=
  [ say "\n\nRelationships between OS affinity mask, Initial APIC ID, and 3-level sub-IDs: \n";
    Printf "\n%s\n\n" [LogArg procData] ].

(** [main].  Its [char procData[2048]] is the buffer [CPUCount] appends
    the log to ([PROCDATA_SIZE]); a log that does not fit leaves [main]
    without a result as well.  [cpu_after] is the processor the process
    runs on once [CPUCount] has returned, where the two CPUID counts are
    read again.  The products in the assertions are of counts of at most
    256 and 255. *)
Definition main (p : platform) (cpu_after : nat) (uPkg uCore uSMT : list Z)
    (os0 : os_state) : option (list printf_call * termination) :=
  r ← CPUCount p uPkg uCore uSMT
        {| totAvailLogical := 0; totAvailCore := 0; totPhysPack := 0 |} os0;
  let sysAttributes := status_code (result r) in
  let corePerPack := multiCoresPerProcPak p cpu_after in
  let logicalPerPack := logicalProcessorsPerPackage p cpu_after in
  if negb (totPhysPack (out r) * corePerPack >=? totAvailCore (out r))
  then Some ([], Aborts)
  else if negb (totPhysPack (out r) * logicalPerPack >=? totAvailLogical (out r))
  then Some ([], Aborts)
  else
    let logicalPerCore := Z.quot logicalPerPack corePerPack in
    let '(attributes, exited) :=
      printAttributes sysAttributes (totPhysPack (out r)) in
    match exited with
    | Some code => Some (printHeader ++ attributes, Exits code)
    | None =>
        Some (printHeader ++ attributes
                ++ printCapabilities (totPhysPack (out r)) (totAvailCore (out r))
                     (totAvailLogical (out r)) corePerPack logicalPerCore
                ++ printAffinity (procData (final r)),
              Exits 0)
    end.

(** A machine with 257 configured processors, all enabled, every
    scheduler call accepted. *)
Definition machine_257 : platform :=
  {| numProcessors := 257; entry_cpu := 0; cpuid := sample_cpuid;
     setaffinity_ok := fun _ => true |}.

Definition os_257 : os_state := {| affinity := Z.ones 257; calls := 0 |}.

(** ** The feature report of cpuid.cpp

    [cpuinfo leaf] is what [__cpuid(CPUInfo, leaf)] stores: the four
    registers, read by the program as [int].  The brand string is the 48
    bytes of leaves [0x80000002 .. 0x80000004], passed to [printf] as they
    are.  The closing [scanf] is not part of the report. *)

(** [(reg & 1<<n) != 0] on [int] operands. *)
Definition CPUInfo_bit (reg n : Z) : bool :=
  negb (Z.land (to_int reg) (to_int (wrap32 (Z.shiftl 1 n))) =? 0).

Definition when (b : bool) (text : string) : list printf_call :=
  if b then [say text] else [].

Definition cpuid_report (cpuinfo : Z -> cpuid_regs) : list printf_call :=
  let brand := [cpuinfo 0x80000002; cpuinfo 0x80000003; cpuinfo 0x80000004] in
  let info1 := cpuinfo 1 in
  let IsHTT := CPUInfo_bit (r_edx info1) 28 in
  let IsMMX := CPUInfo_bit (r_edx info1) 23 in
  let IsSSE := CPUInfo_bit (r_edx info1) 25 in
  let IsSSE2 := CPUInfo_bit (r_edx info1) 26 in
  let IsSSE3 := CPUInfo_bit (r_ecx info1) 0 in
  let IsSSSE3 := CPUInfo_bit (r_ecx info1) 9 in
  let IsIA64 := CPUInfo_bit (r_ecx info1) 30 in
  let IsSStep := CPUInfo_bit (r_ecx info1) 7 in
  let info81 := cpuinfo 0x80000001 in
  let Is3DNOW := CPUInfo_bit (r_edx info81) 31 in
  let Is3DNOW2 := CPUInfo_bit (r_edx info81) 30 in
  let IsMMXExt := CPUInfo_bit (r_edx info81) 22 in
  let IsAA64 := if Is3DNOW then CPUInfo_bit (r_edx info81) 29 else false in
  let IsEM64T := if Is3DNOW then false else CPUInfo_bit (r_edx info81) 29 in
  let Core :=
    if Is3DNOW
    then to_int (wrap32 (to_int (r_ecx (cpuinfo 0x80000008)) + 1))
    else to_int (wrap32
           (Z.shiftr (Z.land (r_eax (cpuinfo 4)) 0xFC000000) 26 + 1)) in
  [Printf "\n%s\n" [BrandArg brand]]
    ++ when Is3DNOW "\n3DNow!"
    ++ when Is3DNOW2 "\n3DNow!2"
    ++ when IsMMX "\nMMX"
    ++ when IsMMXExt "\nMMXExt"
    ++ when IsSSE "\nSSE"
    ++ when IsSSE2 "\nSSE2"
    ++ when IsSSE3 "\nSSE3"
    ++ when IsSSSE3 "\nSSSE3"
    ++ when IsHTT "\nHTT"
    ++ when IsAA64 "\nx86-64"
    ++ when IsIA64 "\nIA64"
    ++ when IsEM64T "\nEM64T"
    ++ when IsSStep "\nSpeedStep"
    ++ [Printf "\nCore %d\n" [IntArg Core]].

(** The feature names in the order the program tests them. *)
Definition feature_names : list string :=
  [ "\n3DNow!"; "\n3DNow!2"; "\nMMX"; "\nMMXExt"; "\nSSE"; "\nSSE2"; "\nSSE3";
    "\nSSSE3"; "\nHTT"; "\nx86-64"; "\nIA64"; "\nEM64T"; "\nSpeedStep" ].

(** A processor without 3DNow!: long mode, SSE2, two cores. *)
Definition sample_cpuinfo (leaf : Z) : cpuid_regs :=
  if leaf =? 1 then
    {| r_eax := 0; r_ebx := 0; r_ecx := 1; r_edx := 0x14000000 |}
  else if leaf =? 0x80000001 then
    {| r_eax := 0; r_ebx := 0; r_ecx := 0; r_edx := 0x20000000 |}
  else if leaf =? 4 then
    {| r_eax := 0x04000000; r_ebx := 0; r_ecx := 0; r_edx := 0 |}
  else {| r_eax := 0; r_ebx := 0; r_ecx := 0; r_edx := 0 |}.

(** The text of [when], without the call around it. *)
Definition named (b : bool) (text : string) : list string :=
  if b then [text] else [].

(** * Theorems *)

Section BitfieldExtractor.

Lemma low16_small (x : Z) : 0 <= x < 2 ^ 16 -> low16 x = x.
Proof. intros H. unfold low16. apply Z.mod_small, H. Qed.

Lemma set_low16_small (x v : Z) :
  0 <= x < 2 ^ 16 -> 0 <= v < 2 ^ 16 -> set_low16 x v = v.
Proof. intros Hx Hv. unfold set_low16. rewrite !low16_small by assumption. lia. Qed.

(** The scan statement entered with [v] in [eax] and 0 in [ecx]. *)
Lemma asm_scan_unfold (v : Z) :
  ecx (asm_scan {| eax := v; ecx := 0; zf := true |}) =
  if low16 (wrap32 (v - 1)) =? 0 then 0
  else low16 (Z.log2 (low16 (wrap32 (v - 1))) + 1).
Proof.
  unfold asm_scan, bsrw_ax_cx, decl_eax; cbn [eax ecx zf].
  destruct (low16 (wrap32 (v - 1)) =? 0) eqn:E; cbn [eax ecx zf]; [reflexivity|].
  unfold incw_cx; cbn [eax ecx zf].
  set (a := low16 (wrap32 (v - 1))) in *.
  assert (Ha : 0 < a < 2 ^ 16).
  { apply Z.eqb_neq in E. subst a. unfold low16 in *.
    pose proof (Z.mod_pos_bound (wrap32 (v - 1)) (2 ^ 16)). lia. }
  assert (Hl : 0 <= Z.log2 a < 16).
  { split; [apply Z.log2_nonneg|]. apply Z.log2_lt_pow2; lia. }
  assert (H0 : set_low16 0 (Z.log2 a) = Z.log2 a) by (apply set_low16_small; lia).
  rewrite H0, (low16_small (Z.log2 a)) by lia.
  rewrite (low16_small (Z.log2 a + 1)) by lia.
  apply set_low16_small; lia.
Qed.

(** Had [count] been in [eax], the scan would give the width of the
    specification for every count from 1 to 65536. *)
Lemma asm_scan_of_count (n : Z) :
  1 <= n <= 65536 ->
  ecx (asm_scan {| eax := n; ecx := 0; zf := true |}) = maskWidth_spec n.
Proof.
  intros Hn. rewrite asm_scan_unfold. unfold maskWidth_spec, wrap32, low16.
  rewrite (Z.mod_small (n - 1) (2 ^ 32)) by lia.
  rewrite (Z.mod_small (n - 1) (2 ^ 16)) by lia.
  destruct (n - 1 =? 0) eqn:E; [reflexivity|].
  apply Z.eqb_neq in E.
  assert (Hl : 0 <= Z.log2 (n - 1) < 16).
  { split; [apply Z.log2_nonneg|]. apply Z.log2_lt_pow2; lia. }
  rewrite (Z.mod_small (Z.log2 (n - 1) + 1)) by lia. reflexivity.
Qed.

(** The scan is entered with 0 in [eax]: the decrement wraps to
    [0xFFFFFFFF] and the width is 16, whatever the count. *)
Lemma find_maskwidth_16 (n : Z) : find_maskwidth n = 16.
Proof. reflexivity. Qed.

Lemma find_maskwidth_range (n : Z) : 0 <= find_maskwidth n <= 16.
Proof. rewrite find_maskwidth_16. lia. Qed.

(** C3: [find_maskwidth] does not compute [ceil (log2 maxCount)]: it
    returns 16 for every count, so the widths of 1, 2, 3, 4, 5 are 16 and
    not 0, 1, 2, 2, 3, and [2 ^ (width - 1) < maxCount] fails from
    [maxCount = 1] on (up to 32768). *)
Theorem find_maskwidth_is_16 :
  (forall maxCount : Z, find_maskwidth maxCount = 16) /\
  find_maskwidth 1 = 16 /\ maskWidth_spec 1 = 0 /\
  find_maskwidth 2 = 16 /\ maskWidth_spec 2 = 1 /\
  find_maskwidth 3 = 16 /\ maskWidth_spec 3 = 2 /\
  find_maskwidth 4 = 16 /\ maskWidth_spec 4 = 2 /\
  find_maskwidth 5 = 16 /\ maskWidth_spec 5 = 3 /\
  maskWidth_spec 1 = Z.log2_up 1 /\ find_maskwidth 1 <> Z.log2_up 1 /\
  0 < find_maskwidth 1 /\ ~ (2 ^ (find_maskwidth 1 - 1) < 1).
Proof.
  split; [apply find_maskwidth_16|].
  rewrite !find_maskwidth_16.
  repeat (split; [first [reflexivity | lia | (vm_compute; discriminate)]|]).
  vm_compute. discriminate.
Qed.

(** C6 (amended): with [maxCount = 0] nothing is signalled: the decrement
    wraps to [0xFFFFFFFF], [find_maskwidth] returns 16, and [getSubID]
    returns [fullID] masked with
    [(0xff << shiftCount) ^ (0xff << (shiftCount + 16))]. *)
Theorem maxCount_zero_returns :
  find_maskwidth 0 = 16 /\
  call_find_maskwidth 0 = Returned 16 /\
  forall fullID shiftCount,
    getSubID fullID 0 shiftCount =
      Z.land fullID (Z.lxor (shl32 0xff shiftCount)
                            (shl32 0xff (wrap32 (shiftCount + 16)))) /\
    call_getSubID fullID 0 shiftCount =
      Returned (Z.land fullID (Z.lxor (shl32 0xff shiftCount)
                                      (shl32 0xff (wrap32 (shiftCount + 16))))).
Proof.
  assert (H0 : find_maskwidth 0 = 16) by (vm_compute; reflexivity).
  split; [exact H0|]. split; [unfold call_find_maskwidth; now rewrite H0|].
  intros fullID shiftCount. unfold call_getSubID, getSubID.
  rewrite H0. split; reflexivity.
Qed.

(** C6, as stated: the calls with [maxCount = 0] return a value. *)
Lemma maxCount_zero_not_signalled :
  call_find_maskwidth 0 <> Signalled InvalidArgument /\
  call_find_maskwidth 0 = Returned 16 /\
  call_getSubID 0xAB 0 0 <> Signalled InvalidArgument /\
  call_getSubID 0xAB 0 0 = Returned 0xAB.
Proof.
  split; [discriminate|]. split; [vm_compute; reflexivity|].
  split; [discriminate|]. vm_compute; reflexivity.
Qed.

Lemma wrap32_small (x : Z) : 0 <= x < 2 ^ 32 -> wrap32 x = x.
Proof. intros H. unfold wrap32. apply Z.mod_small, H. Qed.

Lemma land_below (x m : Z) : 0 <= x -> 0 <= Z.land x m <= x.
Proof.
  intros Hx. apply Z.ldiff_le; [exact Hx|].
  apply Z.bits_inj'. intros i Hi.
  rewrite Z.ldiff_spec, Z.land_spec, Z.bits_0.
  destruct (Z.testbit x i), (Z.testbit m i); reflexivity.
Qed.

Lemma shl32_ff_testbit (k i : Z) :
  0 <= k < 32 -> 0 <= i ->
  Z.testbit (shl32 0xff k) i = (i <? 32) && (k <=? i) && (i <? k + 8).
Proof.
  intros Hk Hi. unfold shl32, wrap32.
  rewrite (Z.mod_small k 32) by lia.
  rewrite Z.testbit_mod_pow2 by lia.
  rewrite Z.shiftl_spec by lia.
  change 255 with (Z.ones 8).
  rewrite Z.testbit_ones by lia.
  destruct (i <? 32), (k <=? i) eqn:E1, (i <? k + 8) eqn:E2,
           (0 <=? i - k) eqn:E3, (i - k <? 8) eqn:E4; simpl; try reflexivity; lia.
Qed.

Lemma byte_testbit_high (x i : Z) :
  0 <= x < 256 -> 8 <= i -> Z.testbit x i = false.
Proof.
  intros Hx Hi. rewrite <- (Z.mod_small x (2 ^ 8)) by lia.
  apply Z.mod_pow2_bits_high. lia.
Qed.

Lemma getSubID_idem (rawId maxCount shiftCount : Z) :
  getSubID (getSubID rawId maxCount shiftCount) maxCount shiftCount =
  getSubID rawId maxCount shiftCount.
Proof.
  unfold getSubID. rewrite <- Z.land_assoc, Z.land_diag. reflexivity.
Qed.

(** With the width 16, the mask of [getSubID] at shift 0 and at shift 16 is
    [0x00ff00ff]: an 8-bit id passes through unchanged. *)
Lemma getSubID_byte (fullID maxSubIDValue shiftCount : Z) :
  0 <= fullID < 256 -> shiftCount = 0 \/ shiftCount = 16 ->
  getSubID fullID maxSubIDValue shiftCount = fullID.
Proof.
  intros Hx Hs. unfold getSubID. rewrite find_maskwidth_16.
  assert (Hm : Z.lxor (shl32 255 shiftCount) (shl32 255 (wrap32 (shiftCount + 16)))
               = Z.lxor (shl32 255 0) (shl32 255 16))
    by (destruct Hs as [-> | ->]; reflexivity).
  rewrite Hm. apply Z.bits_inj'. intros i Hi.
  rewrite Z.land_spec, Z.lxor_spec, !shl32_ff_testbit by lia.
  destruct (Z.lt_ge_cases i 8) as [Hlt|Hge].
  - destruct (Z.testbit fullID i); [|reflexivity].
    destruct (i <? 32) eqn:E0, (0 <=? i) eqn:E1, (i <? 0 + 8) eqn:E2,
      (16 <=? i) eqn:E3, (i <? 16 + 8) eqn:E4; simpl; try reflexivity; lia.
  - rewrite (byte_testbit_high fullID i) by lia. reflexivity.
Qed.

(** With the width 16, the package mask [0xff << 16] clears an 8-bit id. *)
Lemma package_mask_byte (fullID countItem : Z) :
  0 <= fullID < 256 ->
  Z.land fullID (shl32 0xff (find_maskwidth countItem)) = 0.
Proof.
  intros Hx. rewrite find_maskwidth_16. apply Z.bits_inj'. intros i Hi.
  rewrite Z.land_spec, Z.bits_0, shl32_ff_testbit by lia.
  destruct (Z.lt_ge_cases i 8) as [Hlt|Hge].
  - destruct (16 <=? i) eqn:E; [apply Z.leb_le in E; lia|].
    rewrite andb_false_r, andb_false_l, andb_false_r. reflexivity.
  - rewrite (byte_testbit_high fullID i) by lia. reflexivity.
Qed.

(** C7: [getSubID] is idempotent, but its result is not confined to the
    [maskWidth maxCount] bits at [shiftCount]: the width it gets from
    [find_maskwidth] is 16.  [getSubID 0xB5 4 1] is [0xB4], where the field
    of width 2 at bit 1 holds only [0x04]. *)
Theorem getSubID_outside_spec_field :
  (forall rawId maxCount shiftCount : Z,
      getSubID (getSubID rawId maxCount shiftCount) maxCount shiftCount =
      getSubID rawId maxCount shiftCount) /\
  getSubID 0xB5 4 1 = 0xB4 /\
  maskWidth_spec 4 = 2 /\
  extractSubfield_spec 0xB5 4 1 = 0x04 /\
  Z.testbit (getSubID 0xB5 4 1) 7 = true /\
  ~ within_field (getSubID 0xB5 4 1) (maskWidth_spec 4) 1.
Proof.
  split; [apply getSubID_idem|].
  split; [vm_compute; reflexivity|]. split; [reflexivity|].
  split; [vm_compute; reflexivity|]. split; [vm_compute; reflexivity|].
  intros H. specialize (H 7).
  assert (Hb : Z.testbit (getSubID 0xB5 4 1) 7 = true) by (vm_compute; reflexivity).
  apply H in Hb. vm_compute in Hb. destruct Hb as [_ Hb]. discriminate.
Qed.

End BitfieldExtractor.

Section Classification.

(** C2: the classification is a total function of the four counts
    returning one of the six capability values, by the decision tree of
    the claim; (1,1,1,1) is single-core without HT capability and
    (4,2,2,8) is multi-core with HT enabled.  [distinctCoreCount] is a
    count held in an [int]. *)
Theorem CPUCount_classify_spec
    (distinctCoreCount distinctPackageCount logicalPerCore enabledLogicalCount : Z)
    (Hcount : 0 <= distinctCoreCount <= 2147483647) :
  CPUCount_classify distinctCoreCount distinctPackageCount logicalPerCore
                    enabledLogicalCount =
    (if distinctCoreCount >? distinctPackageCount then
       if logicalPerCore =? 1 then MULTI_CORE_AND_HT_NOT_CAPABLE
       else if enabledLogicalCount >? distinctCoreCount
            then MULTI_CORE_AND_HT_ENABLED
            else MULTI_CORE_AND_HT_DISABLED
     else
       if logicalPerCore =? 1 then SINGLE_CORE_AND_HT_NOT_CAPABLE
       else if enabledLogicalCount >? distinctCoreCount
            then SINGLE_CORE_AND_HT_ENABLED
            else SINGLE_CORE_AND_HT_DISABLED) /\
  CPUCount_classify distinctCoreCount distinctPackageCount logicalPerCore
                    enabledLogicalCount ∈
    [ SINGLE_CORE_AND_HT_NOT_CAPABLE; SINGLE_CORE_AND_HT_ENABLED;
      SINGLE_CORE_AND_HT_DISABLED; MULTI_CORE_AND_HT_NOT_CAPABLE;
      MULTI_CORE_AND_HT_ENABLED; MULTI_CORE_AND_HT_DISABLED ] /\
  CPUCount_classify 1 1 1 1 = SINGLE_CORE_AND_HT_NOT_CAPABLE /\
  CPUCount_classify 4 2 2 8 = MULTI_CORE_AND_HT_ENABLED.
Proof.
  assert (Hw : wrap32 distinctCoreCount = distinctCoreCount)
    by (apply wrap32_small; lia).
  unfold CPUCount_classify. rewrite Hw.
  split; [reflexivity|]. split; [|split; reflexivity].
  destruct (distinctCoreCount >? distinctPackageCount), (logicalPerCore =? 1),
           (enabledLogicalCount >? distinctCoreCount);
    repeat first [apply list_elem_of_here | apply list_elem_of_further].
Qed.

Lemma CPUCount_classify_spec_witness :
  CPUCount_classify 4 2 2 8 ∈
    [ SINGLE_CORE_AND_HT_NOT_CAPABLE; SINGLE_CORE_AND_HT_ENABLED;
      SINGLE_CORE_AND_HT_DISABLED; MULTI_CORE_AND_HT_NOT_CAPABLE;
      MULTI_CORE_AND_HT_ENABLED; MULTI_CORE_AND_HT_DISABLED ].
Proof.
  apply (CPUCount_classify_spec 4 2 2 8). lia.
Defined.

End Classification.

Section TopologyAggregator.

Local Open Scope nat_scope.

Lemma scan_bucket_found (key : Z) (bucket : list Z) (steps i : nat) :
  i + steps ≤ length bucket ->
  key ∈ take steps (drop i bucket) ->
  exists k, scan_bucket key bucket i steps = Some (true, k).
Proof.
  revert i. induction steps as [|steps IH]; intros i Hlen Hin.
  - rewrite take_0 in Hin. inversion Hin.
  - destruct (lookup_lt_is_Some_2 bucket i) as [b Hb]; [lia|].
    rewrite (drop_S _ _ _ Hb) in Hin. cbn [take] in Hin.
    cbn [scan_bucket]. rewrite Hb. cbn.
    case_bool_decide as Hk; [eauto|].
    apply IH; [lia|].
    apply elem_of_cons in Hin as [-> | Hin]; [contradiction|exact Hin].
Qed.

Lemma scan_bucket_fresh (key : Z) (bucket : list Z) (steps i : nat) :
  i + steps ≤ length bucket ->
  key ∉ take steps (drop i bucket) ->
  scan_bucket key bucket i steps = Some (false, i + steps).
Proof.
  revert i. induction steps as [|steps IH]; intros i Hlen Hnin.
  - cbn. do 2 f_equal. lia.
  - destruct (lookup_lt_is_Some_2 bucket i) as [b Hb]; [lia|].
    rewrite (drop_S _ _ _ Hb) in Hnin. cbn [take] in Hnin.
    cbn [scan_bucket]. rewrite Hb. cbn.
    apply not_elem_of_cons in Hnin as [Hne Hnin].
    case_bool_decide as Hk; [contradiction|].
    rewrite IH by (lia || assumption). do 2 f_equal. lia.
Qed.

(** The scan is decided by the first [total] slots of the bucket alone. *)
Lemma scan_bucket_cases (key : Z) (bucket : list Z) (total : nat) :
  total ≤ length bucket ->
  ((key ∈ take total bucket) /\
   (exists k, scan_bucket key bucket 0 total = Some (true, k))) \/
  ((key ∉ take total bucket) /\
   (scan_bucket key bucket 0 total = Some (false, total))).
Proof.
  intros Hlen.
  destruct (decide (key ∈ take total bucket)) as [Hin|Hnin].
  - left. split; [exact Hin|]. apply scan_bucket_found; [lia|exact Hin].
  - right. split; [exact Hnin|].
    apply (scan_bucket_fresh key bucket total 0); [lia|exact Hnin].
Qed.

Lemma distinct_ext (l k : list Z) :
  (forall x, x ∈ l <-> x ∈ k) -> distinct l = distinct k.
Proof.
  intros H. unfold distinct. f_equal. apply set_eq. intros x.
  rewrite !elem_of_list_to_set. apply H.
Qed.

Lemma distinct_NoDup (l : list Z) : NoDup l -> distinct l = length l.
Proof. intros H. unfold distinct. apply size_list_to_set, H. Qed.

Lemma core_keys_S (tblPkgID tblCoreID : list Z) (n : nat) (p c : Z) :
  tblPkgID !! n = Some p -> tblCoreID !! n = Some c ->
  core_keys tblPkgID tblCoreID (S n) =
  core_keys tblPkgID tblCoreID n ++ [Z.lor p c].
Proof.
  intros Hp Hc. unfold core_keys. apply take_S_r.
  rewrite lookup_zip_with, Hp. cbn. rewrite Hc. reflexivity.
Qed.

(** The outer loop of [countAvailableCores]: when the first [total] bucket
    slots hold, without repetition, the keys of the records before
    [procNum], the loop returns the number of distinct keys of all records.
    Slots of the bucket at [total] and beyond are never read. *)
Lemma countAvailableCores_loop_spec (tblPkgID tblCoreID : list Z) :
  forall (steps procNum : nat) (bucket : list Z) (total : nat),
    procNum + steps ≤ length tblPkgID ->
    procNum + steps ≤ length tblCoreID ->
    procNum + steps ≤ length bucket ->
    total ≤ procNum ->
    NoDup (take total bucket) ->
    (forall x, x ∈ take total bucket <-> x ∈ core_keys tblPkgID tblCoreID procNum) ->
    countAvailableCores_loop tblPkgID tblCoreID procNum steps bucket total =
      Some (distinct (core_keys tblPkgID tblCoreID (procNum + steps))).
Proof.
  induction steps as [|steps IH]; intros procNum bucket total Hp Hc Hb Ht Hnd Hset.
  - cbn. f_equal. rewrite Nat.add_0_r.
    rewrite <- (distinct_ext _ _ Hset), (distinct_NoDup _ Hnd).
    rewrite length_take_le by lia. reflexivity.
  - destruct (lookup_lt_is_Some_2 tblPkgID procNum) as [p Hpl]; [lia|].
    destruct (lookup_lt_is_Some_2 tblCoreID procNum) as [c Hcl]; [lia|].
    cbn [countAvailableCores_loop]. rewrite Hpl, Hcl. cbn.
    replace (procNum + S steps) with (S procNum + steps) by lia.
    pose proof (core_keys_S _ _ _ _ _ Hpl Hcl) as HS.
    destruct (scan_bucket_cases (Z.lor p c) bucket total) as
      [[Hin [k Hk]]|[Hnin Hk]]; [lia| |]; rewrite Hk; cbn.
    + apply IH; try lia; [exact Hnd|].
      intros x. rewrite HS, elem_of_app, list_elem_of_singleton, <- Hset.
      split; [tauto|]. intros [H | ->]; assumption.
    + destruct (decide (total < length bucket)) as [Hlt|Hge]; [|lia].
      assert (Htake : take (S total) (<[total := Z.lor p c]> bucket) =
                      take total bucket ++ [Z.lor p c]).
      { rewrite (take_S_r _ _ (Z.lor p c)) by (apply list_lookup_insert_eq; lia).
        rewrite take_insert_ge by lia. reflexivity. }
      apply IH; rewrite ?length_insert; try lia.
      * rewrite Htake. apply NoDup_app. split; [exact Hnd|]. split.
        -- intros x Hx Hx'. apply list_elem_of_singleton in Hx'. subst x.
           contradiction.
        -- apply NoDup_singleton.
      * intros x. rewrite Htake, HS, !elem_of_app, Hset. reflexivity.
Qed.

(** Whatever the tables hold, the loop never lowers [total]. *)
Lemma countAvailableCores_loop_ge (tblPkgID tblCoreID : list Z) :
  forall (steps procNum : nat) (bucket : list Z) (total t : nat),
    countAvailableCores_loop tblPkgID tblCoreID procNum steps bucket total = Some t ->
    total ≤ t.
Proof.
  induction steps as [|steps IH]; intros procNum bucket total t H.
  - cbn in H. injection H as <-. lia.
  - cbn [countAvailableCores_loop] in H.
    destruct (tblPkgID !! procNum) as [p|]; [|discriminate].
    destruct (tblCoreID !! procNum) as [c|]; [|discriminate].
    cbn in H.
    destruct (scan_bucket (Z.lor p c) bucket 0 total) as [[found i]|];
      [|discriminate].
    cbn in H. destruct found.
    + apply IH in H. exact H.
    + destruct (decide (i < length bucket)); [|discriminate].
      apply IH in H. lia.
Qed.

(** [countPhysicalPacks] is [countAvailableCores] with the package table in
    both places: [p | p = p]. *)
Lemma countPhysicalPacks_loop_as_cores (tblPkgID : list Z) :
  forall (steps procNum : nat) (bucket : list Z) (total : nat),
    countPhysicalPacks_loop tblPkgID procNum steps bucket total =
    countAvailableCores_loop tblPkgID tblPkgID procNum steps bucket total.
Proof.
  induction steps as [|steps IH]; intros procNum bucket total; [reflexivity|].
  cbn [countPhysicalPacks_loop countAvailableCores_loop].
  destruct (tblPkgID !! procNum) as [p|]; [|reflexivity].
  cbn. rewrite Z.lor_diag.
  destruct (scan_bucket p bucket 0 total) as [[found i]|]; [|reflexivity].
  cbn. destruct found; [apply IH|].
  destruct (decide (i < length bucket)); [apply IH|reflexivity].
Qed.

Lemma countPhysicalPacks_as_cores (tblPkgID : list Z) (n : nat) :
  countPhysicalPacks tblPkgID n = countAvailableCores tblPkgID tblPkgID n.
Proof.
  unfold countPhysicalPacks, countAvailableCores.
  destruct (tblPkgID !! 0) as [p0|]; [|reflexivity].
  cbv zeta. cbn [mbind option_bind].
  rewrite Z.lor_diag. apply countPhysicalPacks_loop_as_cores.
Qed.

Lemma pack_keys_as_core_keys (tblPkgID : list Z) (n : nat) :
  pack_keys tblPkgID n = core_keys tblPkgID tblPkgID n.
Proof.
  unfold pack_keys, core_keys. f_equal.
  induction tblPkgID as [|p l IH]; [reflexivity|].
  cbn. rewrite Z.lor_diag. f_equal. exact IH.
Qed.

Lemma countAvailableCores_distinct (tblPkgID tblCoreID : list Z) (n : nat) :
  1 ≤ n ≤ 256 -> n ≤ length tblPkgID -> n ≤ length tblCoreID ->
  countAvailableCores tblPkgID tblCoreID n =
    Some (distinct (core_keys tblPkgID tblCoreID n)).
Proof.
  intros Hn Hp Hc. unfold countAvailableCores.
  destruct (lookup_lt_is_Some_2 tblPkgID 0) as [p0 Hp0]; [lia|].
  destruct (lookup_lt_is_Some_2 tblCoreID 0) as [c0 Hc0]; [lia|].
  rewrite Hp0, Hc0. cbv zeta. cbn [mbind option_bind].
  replace n with (1 + (n - 1)) at 2 by lia.
  assert (H1 : core_keys tblPkgID tblCoreID 1 = [Z.lor p0 c0]).
  { rewrite (core_keys_S _ _ _ _ _ Hp0 Hc0). reflexivity. }
  assert (Hb : take 1 (<[0 := Z.lor p0 c0]> (uninitialised 256)) = [Z.lor p0 c0])
    by reflexivity.
  apply countAvailableCores_loop_spec; try lia.
  - rewrite length_insert. unfold uninitialised. rewrite length_replicate. lia.
  - rewrite Hb. apply NoDup_singleton.
  - intros x. rewrite Hb, H1. reflexivity.
Qed.

Lemma countPhysicalPacks_distinct (tblPkgID : list Z) (n : nat) :
  1 ≤ n ≤ 256 -> n ≤ length tblPkgID ->
  countPhysicalPacks tblPkgID n = Some (distinct (pack_keys tblPkgID n)).
Proof.
  intros Hn Hp.
  rewrite countPhysicalPacks_as_cores, pack_keys_as_core_keys.
  apply countAvailableCores_distinct; assumption.
Qed.

Lemma distinct_snoc_in (l : list Z) (x : Z) :
  x ∈ l -> distinct (l ++ [x]) = distinct l.
Proof.
  intros Hx. apply distinct_ext. intros y.
  rewrite elem_of_app, list_elem_of_singleton.
  split; [intros [H | ->]; assumption | tauto].
Qed.

Lemma distinct_snoc_notin (l : list Z) (x : Z) :
  x ∉ l -> distinct (l ++ [x]) = S (distinct l).
Proof.
  intros Hx. unfold distinct.
  rewrite list_to_set_app_L, size_union.
  - cbn. rewrite union_empty_r_L, size_singleton. lia.
  - intros y Hy Hy'. rewrite elem_of_list_to_set in Hy.
    cbn in Hy'. rewrite union_empty_r_L in Hy'.
    apply elem_of_singleton in Hy'. subst y. contradiction.
Qed.

Lemma distinct_snoc_le (l : list Z) (x : Z) :
  distinct (l ++ [x]) ≤ S (distinct l).
Proof.
  destruct (decide (x ∈ l)) as [Hin|Hnin].
  - rewrite distinct_snoc_in by assumption. lia.
  - rewrite distinct_snoc_notin by assumption. lia.
Qed.

(** Where the key [packageId | coreId] determines [packageId], there are at
    least as many distinct keys as distinct package ids. *)
Lemma distinct_packs_le_cores (tblPkgID tblCoreID : list Z) (n : nat) :
  (forall i j p c p' c',
      i < n -> j < n ->
      tblPkgID !! i = Some p -> tblCoreID !! i = Some c ->
      tblPkgID !! j = Some p' -> tblCoreID !! j = Some c' ->
      Z.lor p c = Z.lor p' c' -> p = p') ->
  forall m, m ≤ n -> m ≤ length tblPkgID -> m ≤ length tblCoreID ->
    distinct (pack_keys tblPkgID m) ≤ distinct (core_keys tblPkgID tblCoreID m).
Proof.
  intros Hdet. induction m as [|m IH]; intros Hm Hp Hc.
  - unfold pack_keys, core_keys. rewrite !take_0. lia.
  - destruct (lookup_lt_is_Some_2 tblPkgID m) as [p Hpl]; [lia|].
    destruct (lookup_lt_is_Some_2 tblCoreID m) as [c Hcl]; [lia|].
    rewrite (core_keys_S _ _ _ _ _ Hpl Hcl).
    unfold pack_keys in *. rewrite (take_S_r _ _ _ Hpl).
    specialize (IH ltac:(lia) ltac:(lia) ltac:(lia)).
    destruct (decide (Z.lor p c ∈ core_keys tblPkgID tblCoreID m)) as [Hin|Hnin].
    + rewrite (distinct_snoc_in _ _ Hin).
      unfold core_keys in Hin. apply elem_of_take in Hin as (j & Hj & Hjm).
      rewrite lookup_zip_with in Hj.
      destruct (tblPkgID !! j) as [p'|] eqn:Hpj; [|discriminate].
      destruct (tblCoreID !! j) as [c'|] eqn:Hcj; [|discriminate].
      cbn in Hj. injection Hj as Hj.
      assert (Heq : p' = p)
        by (apply (Hdet j m p' c' p c); (lia || assumption)).
      subst p'. rewrite distinct_snoc_in; [exact IH|].
      apply elem_of_take. exists j. split; [assumption|lia].
    + rewrite (distinct_snoc_notin _ _ Hnin).
      pose proof (distinct_snoc_le (take m tblPkgID) p). lia.
Qed.

(** C1 (amended): for a non-empty table of at most 256 records,
    [countAvailableCores] returns the number of distinct values of
    [packageId | coreId] and [countPhysicalPacks] the number of distinct
    values of [packageId]; two tables in which the same values occur get
    the same counts, whatever the order of the records.  For the table with
    package ids 0,0,1,1 and core ids 0,1,0,1 the keys are 0,1,1,1, so the
    core count is 2 and the package count is 2 (with package ids 0,0,2,2
    the keys are distinct and the counts are 4 and 2); two records with
    equal keys give core count 1. *)
Theorem counts_are_distinct_values (tblPkgID tblCoreID : list Z) (n : nat)
    (Hn : 1 ≤ n ≤ 256)
    (Hp : n ≤ length tblPkgID) (Hc : n ≤ length tblCoreID) :
  countAvailableCores tblPkgID tblCoreID n =
    Some (distinct (core_keys tblPkgID tblCoreID n)) /\
  countPhysicalPacks tblPkgID n = Some (distinct (pack_keys tblPkgID n)) /\
  (forall (tblPkgID' tblCoreID' : list Z) (n' : nat),
      1 ≤ n' ≤ 256 -> n' ≤ length tblPkgID' -> n' ≤ length tblCoreID' ->
      (forall x, x ∈ core_keys tblPkgID tblCoreID n <->
                 x ∈ core_keys tblPkgID' tblCoreID' n') ->
      countAvailableCores tblPkgID' tblCoreID' n' =
      countAvailableCores tblPkgID tblCoreID n) /\
  (forall (tblPkgID' : list Z) (n' : nat),
      1 ≤ n' ≤ 256 -> n' ≤ length tblPkgID' ->
      (forall x, x ∈ pack_keys tblPkgID n <-> x ∈ pack_keys tblPkgID' n') ->
      countPhysicalPacks tblPkgID' n' = countPhysicalPacks tblPkgID n) /\
  countAvailableCores [0; 0; 1; 1]%Z [0; 1; 0; 1]%Z 4 = Some 2 /\
  countPhysicalPacks [0; 0; 1; 1]%Z 4 = Some 2 /\
  countAvailableCores [0; 0; 2; 2]%Z [0; 1; 0; 1]%Z 4 = Some 4 /\
  countPhysicalPacks [0; 0; 2; 2]%Z 4 = Some 2 /\
  (forall p0 c0 p1 c1 : Z,
      Z.lor p0 c0 = Z.lor p1 c1 ->
      countAvailableCores [p0; p1] [c0; c1] 2 = Some 1).
Proof.
  split; [apply countAvailableCores_distinct; assumption|].
  split; [apply countPhysicalPacks_distinct; assumption|].
  split.
  { intros pkg' core' n' Hn' Hp' Hc' Hsame.
    rewrite !countAvailableCores_distinct by assumption.
    f_equal. symmetry. apply distinct_ext, Hsame. }
  split.
  { intros pkg' n' Hn' Hp' Hsame.
    rewrite !countPhysicalPacks_distinct by assumption.
    f_equal. symmetry. apply distinct_ext, Hsame. }
  do 4 (split; [vm_compute; reflexivity|]).
  intros p0 c0 p1 c1 Hk.
  rewrite countAvailableCores_distinct by (cbn; lia).
  f_equal. unfold core_keys. cbn [take zip_with]. rewrite <- Hk.
  change [Z.lor p0 c0; Z.lor p0 c0] with ([Z.lor p0 c0] ++ [Z.lor p0 c0]).
  rewrite distinct_snoc_in by apply list_elem_of_here.
  apply (distinct_NoDup [Z.lor p0 c0]), NoDup_singleton.
Qed.

Lemma counts_are_distinct_values_witness :
  countAvailableCores [0; 0; 2; 2]%Z [0; 1; 0; 1]%Z 4 =
    Some (distinct (core_keys [0; 0; 2; 2]%Z [0; 1; 0; 1]%Z 4)).
Proof.
  refine (proj1 (counts_are_distinct_values [0; 0; 2; 2]%Z [0; 1; 0; 1]%Z 4 _ _ _));
    cbn [length]; lia.
Defined.

(** C1, as stated: the keys of that table are [0|0, 0|1, 1|0, 1|1], that
    is 0, 1, 1, 1, and the core count is 2, not 4. *)
Lemma countAvailableCores_overlapping_ids :
  core_keys [0; 0; 1; 1]%Z [0; 1; 0; 1]%Z 4 = [0; 1; 1; 1]%Z /\
  countAvailableCores [0; 0; 1; 1]%Z [0; 1; 0; 1]%Z 4 = Some 2 /\
  countAvailableCores [0; 0; 1; 1]%Z [0; 1; 0; 1]%Z 4 <> Some 4.
Proof.
  split; [reflexivity|]. split; [vm_compute; reflexivity|].
  vm_compute. discriminate.
Qed.

(** C8 (amended): for every non-empty table in which records with equal
    [packageId | coreId] have equal [packageId] (as when both are masks of
    one APIC id), the core count is at least the package count. *)
Theorem cores_at_least_packs (tblPkgID tblCoreID : list Z) (n : nat)
    (Hn : 1 ≤ n ≤ 256)
    (Hp : n ≤ length tblPkgID) (Hc : n ≤ length tblCoreID)
    (Hdet : forall i j p c p' c',
        i < n -> j < n ->
        tblPkgID !! i = Some p -> tblCoreID !! i = Some c ->
        tblPkgID !! j = Some p' -> tblCoreID !! j = Some c' ->
        Z.lor p c = Z.lor p' c' -> p = p') :
  exists cores packs : nat,
    countAvailableCores tblPkgID tblCoreID n = Some cores /\
    countPhysicalPacks tblPkgID n = Some packs /\
    packs ≤ cores.
Proof.
  exists (distinct (core_keys tblPkgID tblCoreID n)),
         (distinct (pack_keys tblPkgID n)).
  split; [apply countAvailableCores_distinct; assumption|].
  split; [apply countPhysicalPacks_distinct; assumption|].
  apply (distinct_packs_le_cores tblPkgID tblCoreID n Hdet n); lia.
Qed.

(** C8, as stated for every table: package ids 0,1 with core ids 1,0 share
    the key 1, so there is one core bucket and two package buckets. *)
Lemma cores_below_packs :
  countAvailableCores [0; 1]%Z [1; 0]%Z 2 = Some 1 /\
  countPhysicalPacks [0; 1]%Z 2 = Some 2 /\
  ~ (2 ≤ 1).
Proof.
  split; [vm_compute; reflexivity|]. split; [vm_compute; reflexivity|]. lia.
Qed.

End TopologyAggregator.

Lemma cores_at_least_packs_witness :
  exists cores packs : nat,
    countAvailableCores [0; 0; 2; 2] [0; 1; 0; 1] 4 = Some cores /\
    countPhysicalPacks [0; 0; 2; 2] 4 = Some packs /\
    (packs <= cores)%nat.
Proof.
  apply (cores_at_least_packs [0; 0; 2; 2] [0; 1; 0; 1] 4);
    [lia | cbn [length]; lia | cbn [length]; lia |].
  intros i j p c p' c' Hi Hj Hp Hc Hp' Hc' Hk.
  destruct i as [|[|[|[|i]]]]; try lia;
    destruct j as [|[|[|[|j]]]]; try lia;
    cbn in Hp, Hc, Hp', Hc'; simplify_eq; (reflexivity || discriminate).
Defined.

Section CountsDefined.

Local Open Scope nat_scope.

Lemma countAvailableCores_ge_1 (tblPkgID tblCoreID : list Z) (n t : nat) :
  countAvailableCores tblPkgID tblCoreID n = Some t -> 1 ≤ t.
Proof.
  unfold countAvailableCores.
  destruct (tblPkgID !! 0) as [p0|]; [|discriminate].
  destruct (tblCoreID !! 0) as [c0|]; [|discriminate].
  cbv zeta. cbn [mbind option_bind].
  apply countAvailableCores_loop_ge.
Qed.

Lemma countAvailableCores_empty (tblPkgID tblCoreID : list Z) :
  1 ≤ length tblPkgID -> 1 ≤ length tblCoreID ->
  countAvailableCores tblPkgID tblCoreID 0 = Some 1.
Proof.
  intros Hp Hc. unfold countAvailableCores.
  destruct (lookup_lt_is_Some_2 tblPkgID 0) as [p0 Hp0]; [lia|].
  destruct (lookup_lt_is_Some_2 tblCoreID 0) as [c0 Hc0]; [lia|].
  rewrite Hp0, Hc0. reflexivity.
Qed.

(** On the 256-slot tables of the caller the counting functions return for
    every record count up to 256. *)
Lemma countAvailableCores_total (tblPkgID tblCoreID : list Z) (n : nat) :
  n ≤ 256 -> 1 ≤ length tblPkgID -> 1 ≤ length tblCoreID ->
  n ≤ length tblPkgID -> n ≤ length tblCoreID ->
  exists t, countAvailableCores tblPkgID tblCoreID n = Some t /\ 1 ≤ t.
Proof.
  intros Hn Hp1 Hc1 Hp Hc. destruct n as [|n].
  - exists 1. split; [apply countAvailableCores_empty; assumption|lia].
  - eexists. split; [apply countAvailableCores_distinct; lia|].
    eapply countAvailableCores_ge_1, countAvailableCores_distinct; lia.
Qed.

Lemma countPhysicalPacks_total (tblPkgID : list Z) (n : nat) :
  n ≤ 256 -> 1 ≤ length tblPkgID -> n ≤ length tblPkgID ->
  exists t, countPhysicalPacks tblPkgID n = Some t /\ 1 ≤ t.
Proof.
  intros Hn Hp1 Hp. rewrite countPhysicalPacks_as_cores.
  apply countAvailableCores_total; assumption.
Qed.

End CountsDefined.

Section TopologyProbe.

Local Open Scope nat_scope.

Variable p : platform.
Variables logicalPerPack corePerPack logicalPerCore : Z.

Local Abbreviation loop := (probe_loop p logicalPerPack corePerPack logicalPerCore).
Local Abbreviation rec := (probe_record p logicalPerPack corePerPack logicalPerCore).

Lemma strlen_app (l k : list LogicalProcessorRecord) :
  strlen (l ++ k) = strlen l + strlen k.
Proof.
  induction l as [|r l IH]; [reflexivity|].
  cbn [app strlen foldr] in *. fold (strlen (l ++ k)). fold (strlen l).
  rewrite IH. lia.
Qed.

(** One iteration of the probing loop. *)
Lemma probe_loop_step (j steps : nat) (st : probe) :
  loop j (S steps) st =
  if setaffinity_ok p (calls (os st)) then
    if decide (j < 256 /\ line_length (rec j) < TMP_SIZE /\
               strlen (procData st) + line_length (rec j) < PROCDATA_SIZE)
    then
      loop (S j) steps
        (probe_store st (rec j)
           {| affinity := CPU_SET j CPU_ZERO; calls := S (calls (os st)) |})
    else None
  else
    loop (S j) steps
      (with_os st {| affinity := affinity (os st); calls := S (calls (os st)) |}).
Proof.
  cbn [probe_loop]. unfold misc_sched_setaffinity.
  destruct (setaffinity_ok p (calls (os st))); [|reflexivity].
  cbn [Z.eqb].
  destruct (decide (j < 256)) as [H1|H1],
           (decide (line_length (rec j) < TMP_SIZE)) as [H2|H2],
           (decide (strlen (procData st) + line_length (rec j) < PROCDATA_SIZE))
             as [H3|H3],
           (decide (j < 256 /\ line_length (rec j) < TMP_SIZE /\
                    strlen (procData st) + line_length (rec j) < PROCDATA_SIZE))
             as [Hf|Hf];
    try reflexivity;
    first [ destruct Hf as (? & ? & ?); contradiction
          | exfalso; apply Hf; auto ].
Qed.

(** Every iteration makes exactly one scheduler call. *)
Lemma probe_loop_calls :
  forall (steps j : nat) (st st' : probe),
    loop j steps st = Some st' -> calls (os st') = calls (os st) + steps.
Proof.
  induction steps as [|steps IH]; intros j st st' H.
  - cbn in H. injection H as <-. lia.
  - rewrite probe_loop_step in H.
    destruct (setaffinity_ok p (calls (os st))).
    + destruct (decide _) as [(Hj & Hline & Hlog)|]; [|discriminate].
      apply IH in H. cbn in H. lia.
    + apply IH in H. cbn in H. lia.
Qed.

(** The loop from [j] on leaves the slots below [j] alone and keeps the
    sizes of the tables. *)
Lemma probe_loop_frame :
  forall (steps j : nat) (st st' : probe),
    loop j steps st = Some st' ->
    (length (tblPkgID st') = length (tblPkgID st) /\
     length (tblCoreID st') = length (tblCoreID st) /\
     length (tblSMTID st') = length (tblSMTID st)) /\
    forall i, i < j ->
      tblPkgID st' !! i = tblPkgID st !! i /\
      tblCoreID st' !! i = tblCoreID st !! i /\
      tblSMTID st' !! i = tblSMTID st !! i.
Proof.
  induction steps as [|steps IH]; intros j st st' H.
  - cbn in H. injection H as <-. auto.
  - rewrite probe_loop_step in H.
    destruct (setaffinity_ok p (calls (os st))).
    + destruct (decide _) as [(Hj & Hline & Hlog)|]; [|discriminate].
      apply IH in H. destruct H as [(Hl1 & Hl2 & Hl3) Hfr].
      cbn in Hl1, Hl2, Hl3. rewrite length_insert in Hl1, Hl2, Hl3.
      split; [auto|]. intros i Hi.
      destruct (Hfr i ltac:(lia)) as (H1 & H2 & H3).
      cbn in H1, H2, H3.
      rewrite list_lookup_insert_ne in H1, H2, H3 by lia. auto.
    + apply IH in H. destruct H as [Hl Hfr]. split; [exact Hl|].
      intros i Hi. apply (Hfr i). lia.
Qed.

Lemma probe_loop_records :
  forall (steps j : nat) (st st' : probe),
    loop j steps st = Some st' ->
    exists new,
      procData st' = procData st ++ new /\
      numLPEnabled st' = numLPEnabled st + length new /\
      length new ≤ steps /\
      Forall (recorded p logicalPerPack corePerPack logicalPerCore j steps st st') new.
Proof.
  induction steps as [|steps IH]; intros j st st' H.
  - cbn in H. injection H as <-. exists []. rewrite app_nil_r. cbn.
    repeat split; [lia | lia | constructor].
  - rewrite probe_loop_step in H.
    destruct (setaffinity_ok p (calls (os st))).
    + destruct (decide _) as [(Hj & Hline & Hlog)|]; [|discriminate].
      pose proof (probe_loop_frame _ _ _ _ H) as [_ Hfr].
      apply IH in H. destruct H as (new & Hpd & Hn & Hlen & Hall).
      cbn in Hpd, Hn. exists (rec j :: new).
      rewrite Hpd, <- app_assoc. cbn.
      split; [reflexivity|]. split; [lia|]. split; [lia|].
      constructor.
      * destruct (Hfr j ltac:(lia)) as (H1 & H2 & H3). cbn in H1, H2, H3.
        unfold recorded. cbn [index probe_record].
        split; [reflexivity|]. split; [lia|]. split; [exact Hj|].
        repeat split; intros Hlt;
          [rewrite H1 | rewrite H2 | rewrite H3];
          apply list_lookup_insert_eq; exact Hlt.
      * eapply Forall_impl; [exact Hall|].
        intros r (Hr & Hidx & H256 & Hp & Hc & Hs). unfold recorded.
        cbn in Hp, Hc, Hs. rewrite length_insert in Hp, Hc, Hs.
        repeat split; (lia || assumption).
    + apply IH in H. destruct H as (new & Hpd & Hn & Hlen & Hall).
      cbn in Hpd, Hn. exists new.
      split; [exact Hpd|]. split; [exact Hn|]. split; [lia|].
      eapply Forall_impl; [exact Hall|].
      intros r (Hr & Hidx & H256 & Hp & Hc & Hs). unfold recorded.
      repeat split; (lia || assumption).
Qed.

(** When every pin is accepted the loop stores the records of
    [j, j+1, ..., j+steps-1], one per slot. *)
Lemma probe_loop_all_pinned :
  forall (steps j : nat) (st st' : probe),
    (forall k, k < steps -> setaffinity_ok p (calls (os st) + k) = true) ->
    loop j steps st = Some st' ->
    index <$> procData st' = (index <$> procData st) ++ seq j steps /\
    numLPEnabled st' = numLPEnabled st + steps.
Proof.
  induction steps as [|steps IH]; intros j st st' Hok H.
  - cbn in H. injection H as <-. cbn. rewrite app_nil_r. split; [reflexivity|lia].
  - rewrite probe_loop_step in H.
    pose proof (Hok 0 ltac:(lia)) as H0. rewrite Nat.add_0_r in H0.
    rewrite H0 in H.
    destruct (decide _) as [(Hj & Hline & Hlog)|]; [|discriminate].
    apply IH in H.
    + destruct H as [Hidx Hn]. cbn in Hidx, Hn.
      rewrite Hidx, fmap_app, <- app_assoc. cbn. split; [reflexivity|lia].
    + intros k Hk. cbn. specialize (Hok (S k) ltac:(lia)).
      rewrite Nat.add_succ_r in Hok. exact Hok.
Qed.

End TopologyProbe.

Section CPUCountRuns.

Local Open Scope nat_scope.

Lemma field_of_register (x mask sh width : Z) :
  (0 <= sh)%Z -> (0 <= width)%Z -> Z.shiftr mask sh = Z.ones width ->
  (0 <= Z.shiftr (Z.land x mask) sh < 2 ^ width)%Z.
Proof.
  intros Hsh Hw Hm. rewrite Z.shiftr_land, Hm, Z.land_ones by assumption.
  apply Z.mod_pos_bound. apply Z.pow_pos_nonneg; lia.
Qed.

Lemma to_int_small (x : Z) : (0 <= x < 2 ^ 31)%Z -> to_int x = x.
Proof.
  intros H. unfold to_int. destruct (x <? 2 ^ 31)%Z eqn:E; [reflexivity|].
  apply Z.ltb_ge in E. lia.
Qed.

Lemma get_apic_id_range (p : platform) (cpu : nat) :
  (0 <= get_apic_id p cpu < 256)%Z.
Proof.
  unfold get_apic_id, INITIAL_APIC_ID_BITS.
  apply (field_of_register _ _ 24 8); [lia | lia | reflexivity].
Qed.

Lemma logicalProcessorsPerPackage_range (p : platform) (cpu : nat) :
  (0 <= logicalProcessorsPerPackage p cpu <= 255)%Z.
Proof.
  unfold logicalProcessorsPerPackage, NUM_LOGICAL_BITS.
  destruct (MTSupported p cpu =? 0)%Z; [lia|].
  pose proof (field_of_register (r_ebx (cpuid p cpu 1 0)) 16711680 16 8
                ltac:(lia) ltac:(lia) eq_refl) as H.
  rewrite to_int_small; lia.
Qed.

Lemma multiCoresPerProcPak_range (p : platform) (cpu : nat) :
  (1 <= multiCoresPerProcPak p cpu <= 64)%Z.
Proof.
  unfold multiCoresPerProcPak, CORES_PER_PROCPAK.
  destruct (get_max_input_value p cpu >=? 4)%Z; [|lia].
  pose proof (field_of_register (r_eax (cpuid p cpu 4 0)) 4227858432 26 6
                ltac:(lia) ltac:(lia) eq_refl) as H.
  rewrite wrap32_small by lia. rewrite to_int_small; lia.
Qed.

Lemma hex_digits_bound (x k : Z) :
  (0 <= x < 2 ^ (4 * k))%Z -> (1 <= k)%Z -> 1 <= hex_digits x <= Z.to_nat k.
Proof.
  intros Hx Hk. unfold hex_digits.
  destruct (x <=? 0)%Z eqn:E; [lia|]. apply Z.leb_gt in E.
  pose proof (Z.log2_nonneg x) as H0.
  assert (Hl : (Z.log2 x < 4 * k)%Z) by (apply Z.log2_lt_pow2; lia).
  assert (Hd : (0 <= Z.log2 x / 4 < k)%Z).
  { split; [apply Z.div_pos; lia|]. apply Z.div_lt_upper_bound; lia. }
  lia.
Qed.

Lemma dec_length_byte (x : Z) : (0 <= x < 256)%Z -> 1 <= dec_length x <= 3.
Proof.
  intros Hx. unfold dec_length. rewrite to_int_small by lia.
  destruct (x <? 0)%Z eqn:E; [apply Z.ltb_lt in E; lia|].
  unfold dec_digits.
  destruct (x <? 10)%Z; [lia|]. destruct (x <? 100)%Z; [lia|].
  destruct (x <? 1000)%Z eqn:E3; [lia|]. apply Z.ltb_ge in E3. lia.
Qed.

Lemma dec_length_land (a m : Z) :
  (0 <= a < 256)%Z -> 1 <= dec_length (Z.land a m) <= 3.
Proof.
  intros Ha. apply dec_length_byte.
  pose proof (land_below a m ltac:(lia)). lia.
Qed.

(** A line of the log has between 82 and 96 characters. *)
Lemma line_length_bounds (p : platform)
    (logicalPerPack corePerPack logicalPerCore : Z) (j : nat) :
  82 <= line_length (probe_record p logicalPerPack corePerPack logicalPerCore j)
     <= 96.
Proof.
  unfold line_length, probe_record, getSubID.
  cbn [affinityMask apicId packageId coreId smtId].
  pose proof (get_apic_id_range p j) as Ha.
  set (a := get_apic_id p j) in *.
  assert (Hm : (0 <= shl32 1 (Z.of_nat j) < 2 ^ (4 * 8))%Z).
  { unfold shl32, wrap32. apply Z.mod_pos_bound. reflexivity. }
  apply hex_digits_bound in Hm; [|lia].
  assert (Hx : (0 <= a < 2 ^ (4 * 2))%Z) by (change (2 ^ (4 * 2))%Z with 256%Z; lia).
  apply hex_digits_bound in Hx; [|lia].
  change (Z.to_nat 8) with 8 in Hm. change (Z.to_nat 2) with 2 in Hx.
  match goal with
  | |- context [_ + dec_length (Z.land a ?m1) + dec_length (Z.land a ?m2)
                + dec_length (Z.land a ?m3)] =>
      pose proof (dec_length_land a m1 Ha);
      pose proof (dec_length_land a m2 Ha);
      pose proof (dec_length_land a m3 Ha)
  end.
  lia.
Qed.

Lemma strlen_cons (r : LogicalProcessorRecord) (l : list LogicalProcessorRecord) :
  strlen (r :: l) = line_length r + strlen l.
Proof. reflexivity. Qed.

(** The log of [n] records has between [82 * n] and [96 * n] characters. *)
Lemma strlen_bounds (p : platform)
    (logicalPerPack corePerPack logicalPerCore : Z) (l : list nat) :
  82 * length l
  <= strlen (probe_record p logicalPerPack corePerPack logicalPerCore <$> l)
  <= 96 * length l.
Proof.
  induction l as [|j l IH]; [cbn; lia|].
  rewrite fmap_cons, strlen_cons. cbn [length].
  pose proof (line_length_bounds p logicalPerPack corePerPack logicalPerCore j).
  lia.
Qed.

Lemma length_filter_seq (f : nat -> bool) (j n : nat) :
  length (List.filter f (seq j n)) <= n.
Proof.
  revert j. induction n as [|n IH]; intros j; [cbn; lia|].
  cbn [seq List.filter]. specialize (IH (S j)).
  destruct (f j); cbn [length]; lia.
Qed.

(** Within the 256-slot tables, and with a log that fits [procData], the
    probing loop completes. *)
Lemma probe_loop_total (p : platform)
    (logicalPerPack corePerPack logicalPerCore : Z) (c0 : nat) :
  forall (steps j : nat) (st : probe),
    calls (os st) = c0 + j ->
    j + steps <= 256 ->
    strlen (procData st) +
    strlen (probe_record p logicalPerPack corePerPack logicalPerCore <$>
              List.filter (fun k => setaffinity_ok p (c0 + k)) (seq j steps))
      < PROCDATA_SIZE ->
    exists st', probe_loop p logicalPerPack corePerPack logicalPerCore j steps st
                = Some st'.
Proof.
  induction steps as [|steps IH]; intros j st Hc Hj Hfit;
    [eexists; reflexivity|].
  rewrite probe_loop_step, Hc. cbn [seq List.filter] in Hfit.
  destruct (setaffinity_ok p (c0 + j)).
  - rewrite fmap_cons, strlen_cons in Hfit.
    pose proof (line_length_bounds p logicalPerPack corePerPack logicalPerCore j)
      as Hb.
    destruct (decide _) as [_|Hn].
    + apply IH; [cbn; lia | lia |].
      cbn [probe_store procData]. rewrite strlen_app, strlen_cons.
      change (strlen []) with 0. lia.
    + exfalso. apply Hn. unfold TMP_SIZE. repeat split; lia.
  - apply IH; [cbn; lia | lia | exact Hfit].
Qed.

(** The two ways [CPUCount] returns. *)
Lemma CPUCount_body_cases (p : platform) (logicalPerPack corePerPack : Z)
    (uPkg uCore uSMT : list Z) (out0 : outputs) (os0 : os_state) (r : run) :
  CPUCount_body p logicalPerPack corePerPack uPkg uCore uSMT out0 os0 = Some r ->
  ((all_configured_enabled (affinity os0) 0 (Z.to_nat (numProcessors p)) = false
    \/ (corePerPack <= 0)%Z) /\
   r = {| result := USER_CONFIG_ISSUE;
          out := {| totAvailLogical := totAvailLogical out0;
                    totAvailCore := 1; totPhysPack := 1 |};
          final := probe_init uPkg uCore uSMT os0 |}) \/
  (all_configured_enabled (affinity os0) 0 (Z.to_nat (numProcessors p)) = true /\
   (0 < corePerPack)%Z /\
   exists (st : probe) (cores packs : nat),
     probe_loop p logicalPerPack corePerPack (Z.quot logicalPerPack corePerPack)
       0 (Z.to_nat (numProcessors p)) (probe_init uPkg uCore uSMT os0) = Some st /\
     countAvailableCores (tblPkgID st) (tblCoreID st) (numLPEnabled st) = Some cores /\
     countPhysicalPacks (tblPkgID st) (numLPEnabled st) = Some packs /\
     r = {| result := CPUCount_classify (Z.of_nat cores) (Z.of_nat packs)
                        (Z.quot logicalPerPack corePerPack)
                        (Z.of_nat (numLPEnabled st));
            out := {| totAvailLogical := Z.of_nat (numLPEnabled st);
                      totAvailCore := Z.of_nat cores;
                      totPhysPack := Z.of_nat packs |};
            final := with_os st
                       (snd (misc_sched_setaffinity p (affinity os0) (os st))) |}).
Proof.
  unfold CPUCount_body, misc_sched_getaffinity. intros H.
  destruct (all_configured_enabled (affinity os0) 0 (Z.to_nat (numProcessors p)));
    cbn [negb] in H.
  2:{ left. injection H as <-. split; [left|]; reflexivity. }
  destruct (corePerPack <=? 0)%Z eqn:E.
  { left. injection H as <-. apply Z.leb_le in E. split; [right; exact E|reflexivity]. }
  apply Z.leb_gt in E. right. split; [reflexivity|]. split; [exact E|].
  destruct (probe_loop _ _ _ _ _ _ _) as [st|] eqn:Eloop; [|discriminate].
  cbn [mbind option_bind] in H.
  destruct (misc_sched_setaffinity p (affinity os0) (os st)) as [rc os'] eqn:Eos.
  destruct (countAvailableCores _ _ _) as [cores|] eqn:Ecores; [|discriminate].
  cbn [mbind option_bind] in H.
  destruct (countPhysicalPacks _ _) as [packs|] eqn:Epacks; [|discriminate].
  cbn [mbind option_bind] in H. injection H as <-.
  exists st, cores, packs. rewrite Eos.
  repeat split; first [assumption | reflexivity].
Qed.

Lemma CPUCount_classify_not_issue (a b c d : Z) :
  CPUCount_classify a b c d <> USER_CONFIG_ISSUE.
Proof.
  unfold CPUCount_classify.
  destruct (a >? b)%Z, (c =? 1)%Z, (d >? wrap32 a)%Z; discriminate.
Qed.

End CPUCountRuns.

Section ProbeClaims.

Local Open Scope nat_scope.

Lemma quot_range (a b : Z) :
  (0 <= a <= 255)%Z -> (1 <= b)%Z -> (0 <= Z.quot a b <= 255)%Z.
Proof.
  intros Ha Hb. rewrite Z.quot_div_nonneg by lia. split.
  - apply Z.div_pos; lia.
  - apply Z.div_le_upper_bound; nia.
Qed.

(** The ids the probe records: thread and core id are the whole APIC id
    and the package id is 0. *)
Lemma probe_record_values (p : platform)
    (logicalPerPack corePerPack logicalPerCore : Z) (j : nat) :
  probe_record p logicalPerPack corePerPack logicalPerCore j =
  {| index := j; affinityMask := shl32 1 (Z.of_nat j);
     apicId := get_apic_id p j; packageId := 0%Z;
     coreId := get_apic_id p j; smtId := get_apic_id p j |}.
Proof.
  unfold probe_record. pose proof (get_apic_id_range p j) as Ha.
  rewrite package_mask_byte by exact Ha.
  rewrite (find_maskwidth_16 (wrap32 logicalPerCore)).
  rewrite !getSubID_byte by (auto; lia). reflexivity.
Qed.

(** C4: every record the probe produces holds the ids the code derives
    from its APIC id, [getSubID apicId logicalPerCore 0],
    [getSubID apicId coresPerPackage (find_maskwidth logicalPerCore)] and
    [apicId & (0xff << find_maskwidth logicalPerPackage)], and the same
    values sit in slot [index] of the three 256-slot tables; but with the
    width 16 that [find_maskwidth] returns these are not the sub-fields of
    the claim: thread and core id are the whole APIC id and the package id
    is 0.  On the sample machine (APIC ids 0..7, 4 logical processors and
    2 cores per package) the record of processor 5 holds package 0, core 5,
    thread 5, where the sub-fields of the widths [maskWidth_spec] are
    package 4, core 0, thread 1. *)
Theorem probe_record_whole_apic_id :
  (forall (p : platform) (uPkg uCore uSMT : list Z)
          (out0 : outputs) (os0 : os_state) (r : run)
          (rec : LogicalProcessorRecord),
      CPUCount p uPkg uCore uSMT out0 os0 = Some r ->
      rec ∈ procData (final r) ->
      let logicalPerPackage := logicalProcessorsPerPackage p (entry_cpu p) in
      let coresPerPackage := multiCoresPerProcPak p (entry_cpu p) in
      let logicalPerCore := Z.quot logicalPerPackage coresPerPackage in
      apicId rec = get_apic_id p (index rec) /\
      smtId rec = getSubID (apicId rec) logicalPerCore 0 /\
      coreId rec = getSubID (apicId rec) coresPerPackage
                     (find_maskwidth logicalPerCore) /\
      packageId rec = Z.land (apicId rec)
                        (shl32 0xff (find_maskwidth logicalPerPackage)) /\
      smtId rec = apicId rec /\
      coreId rec = apicId rec /\
      packageId rec = 0%Z /\
      (length uPkg = 256 -> length uCore = 256 -> length uSMT = 256 ->
       tblSMTID (final r) !! index rec = Some (smtId rec) /\
       tblCoreID (final r) !! index rec = Some (coreId rec) /\
       tblPkgID (final r) !! index rec = Some (packageId rec))) /\
  (exists (r : run) (rec : LogicalProcessorRecord),
      CPUCount machine_ok (stale 0xCC) (stale 0xCC) (stale 0xCC)
        caller_outputs sample_os = Some r /\
      procData (final r) !! 5 = Some rec /\
      index rec = 5 /\ apicId rec = 5%Z /\
      packageId rec = 0%Z /\ coreId rec = 5%Z /\ smtId rec = 5%Z /\
      logicalProcessorsPerPackage machine_ok (entry_cpu machine_ok) = 4%Z /\
      multiCoresPerProcPak machine_ok (entry_cpu machine_ok) = 2%Z /\
      extractSubfield_spec 5 (Z.quot 4 2) 0 = 1%Z /\
      extractSubfield_spec 5 2 (maskWidth_spec (Z.quot 4 2)) = 0%Z /\
      Z.land 5 (Z.shiftl 0xFF (maskWidth_spec 4)) = 4%Z).
Proof.
  split.
  2:{ eexists. eexists. split; [vm_compute; reflexivity|].
      split; [reflexivity|]. repeat split. }
  intros p uPkg uCore uSMT out0 os0 r rec Hrun Hrec lpp cpp lpc.
  pose proof (logicalProcessorsPerPackage_range p (entry_cpu p)) as Hlpp.
  pose proof (multiCoresPerProcPak_range p (entry_cpu p)) as Hcpp.
  fold lpp in Hlpp. fold cpp in Hcpp.
  assert (Hlpc : (0 <= lpc <= 255)%Z) by (apply quot_range; lia).
  unfold CPUCount in Hrun. fold lpp cpp in Hrun.
  apply CPUCount_body_cases in Hrun as
    [[_ ->] | (_ & _ & st & cores & packs & Hloop & _ & _ & ->)].
  { cbn in Hrec. inversion Hrec. }
  cbn [final with_os procData tblPkgID tblCoreID tblSMTID] in *.
  fold lpc in Hloop.
  apply probe_loop_records in Hloop as (new & Hpd & _ & _ & Hall).
  cbn in Hpd. rewrite Hpd in Hrec.
  rewrite Forall_forall in Hall.
  destruct (Hall rec Hrec) as (Hr & _ & H256 & Hp & Hc & Hs).
  cbn [probe_init tblPkgID tblCoreID tblSMTID] in Hp, Hc, Hs.
  pose proof Hr as Hv. rewrite probe_record_values in Hv.
  assert (Hw1 : wrap32 lpc = lpc) by (apply wrap32_small; lia).
  assert (Hw2 : wrap32 cpp = cpp) by (apply wrap32_small; lia).
  assert (Hw3 : wrap32 lpp = lpp) by (apply wrap32_small; lia).
  unfold probe_record in Hr. rewrite Hw1, Hw2, Hw3 in Hr.
  assert (Ha : apicId rec = get_apic_id p (index rec)) by (rewrite Hr; reflexivity).
  split; [exact Ha|]. rewrite Ha.
  split; [rewrite Hr at 1; reflexivity|].
  split; [rewrite Hr at 1; reflexivity|].
  split; [rewrite Hr at 1; reflexivity|].
  split; [rewrite Hv at 1; reflexivity|].
  split; [rewrite Hv at 1; reflexivity|].
  split; [rewrite Hv at 1; reflexivity|].
  intros L1 L2 L3. rewrite L1 in Hp. rewrite L2 in Hc. rewrite L3 in Hs. auto.
Qed.

(** C5 (amended): on both early returns (a configured processor missing
    from the mask, [corePerPack <= 0]) no scheduler call has been made and
    the affinity mask is the one on entry; on normal completion the mask
    at return is the one on entry whenever the final restoring call is
    accepted (its status is not checked). *)
Theorem affinity_at_return (p : platform) (logicalPerPack corePerPack : Z)
    (uPkg uCore uSMT : list Z) (out0 : outputs) (os0 : os_state) (r : run)
    (Hrun : CPUCount_body p logicalPerPack corePerPack uPkg uCore uSMT out0 os0
            = Some r) :
  (all_configured_enabled (affinity os0) 0 (Z.to_nat (numProcessors p)) = false
   \/ (corePerPack <= 0)%Z ->
   result r = USER_CONFIG_ISSUE /\ os (final r) = os0) /\
  (result r = USER_CONFIG_ISSUE -> os (final r) = os0) /\
  (setaffinity_ok p (calls os0 + Z.to_nat (numProcessors p)) = true ->
   affinity (os (final r)) = affinity os0).
Proof.
  apply CPUCount_body_cases in Hrun as
    [[_ ->] | (Hen & Hcpp & st & cores & packs & Hloop & _ & _ & ->)].
  { cbn. auto. }
  cbn [result final with_os os].
  split; [intros [H | H]; [congruence | lia]|].
  split; [intros H; contradiction (CPUCount_classify_not_issue _ _ _ _ H)|].
  intros Hok. apply probe_loop_calls in Hloop. cbn in Hloop.
  unfold misc_sched_setaffinity. rewrite Hloop, Hok. reflexivity.
Qed.

(** When every pin is accepted, the records occupy exactly the slots
    [0 .. numLPEnabled - 1]. *)
Lemma all_pinned_table_invariant (p : platform) (logicalPerPack corePerPack : Z)
    (uPkg uCore uSMT : list Z) (out0 : outputs) (os0 : os_state) (r : run) :
  CPUCount_body p logicalPerPack corePerPack uPkg uCore uSMT out0 os0 = Some r ->
  (forall k, k < Z.to_nat (numProcessors p) ->
             setaffinity_ok p (calls os0 + k) = true) ->
  index <$> procData (final r) = seq 0 (numLPEnabled (final r)) /\
  table_invariant (final r).
Proof.
  intros Hrun Hok.
  apply CPUCount_body_cases in Hrun as
    [[_ ->] | (_ & _ & st & cores & packs & Hloop & _ & _ & ->)].
  { cbn. split; [reflexivity|]. split; constructor. }
  cbn [final with_os procData numLPEnabled].
  apply probe_loop_all_pinned in Hloop; [|exact Hok].
  cbn in Hloop. destruct Hloop as [Hidx Hn].
  assert (Hseq : index <$> procData st = seq 0 (numLPEnabled st))
    by (rewrite Hidx, Hn; reflexivity).
  split; [exact Hseq|]. unfold table_invariant.
  cbn [with_os procData numLPEnabled].
  split; [rewrite Hseq; apply NoDup_seq|].
  apply Forall_forall. intros rec Hrec.
  assert (Hin : index rec ∈ seq 0 (numLPEnabled st))
    by (rewrite <- Hseq; apply list_elem_of_fmap_2; exact Hrec).
  apply elem_of_seq in Hin. lia.
Qed.

End ProbeClaims.

Lemma probe_record_whole_apic_id_witness :
  exists (r : run) (rec : LogicalProcessorRecord),
    CPUCount machine_ok (stale 0xCC) (stale 0xCC) (stale 0xCC)
      caller_outputs sample_os = Some r /\
    rec ∈ procData (final r) /\
    index rec = 5%nat /\
    smtId rec = apicId rec /\ coreId rec = apicId rec /\ packageId rec = 0.
Proof.
  eexists. eexists. split; [vm_compute; reflexivity|].
  split.
  { cbn [final procData]. do 5 apply list_elem_of_further.
    apply list_elem_of_here. }
  split; [reflexivity|].
  refine (let H := proj1 probe_record_whole_apic_id machine_ok (stale 0xCC)
                     (stale 0xCC) (stale 0xCC) caller_outputs sample_os _ _ _ _ in
          conj (proj1 (proj2 (proj2 (proj2 (proj2 H)))))
            (conj (proj1 (proj2 (proj2 (proj2 (proj2 (proj2 H))))))
               (proj1 (proj2 (proj2 (proj2 (proj2 (proj2 (proj2 H))))))))).
  - vm_compute. reflexivity.
  - cbn [final procData]. do 5 apply list_elem_of_further.
    apply list_elem_of_here.
Defined.

Lemma affinity_at_return_witness :
  exists r : run,
    CPUCount_body machine_ok 4 2 (stale 0xCC) (stale 0xCC) (stale 0xCC)
      caller_outputs sample_os = Some r /\
    setaffinity_ok machine_ok (calls sample_os + Z.to_nat (numProcessors machine_ok))
      = true /\
    affinity (os (final r)) = affinity sample_os.
Proof.
  eexists. split; [vm_compute; reflexivity|]. split; [reflexivity|].
  refine (proj2 (proj2 (affinity_at_return machine_ok 4 2 (stale 0xCC)
                          (stale 0xCC) (stale 0xCC) caller_outputs sample_os
                          _ _)) _).
  - vm_compute. reflexivity.
  - reflexivity.
Defined.

(** C5, as stated for every return: when the restoring call is refused the
    process stays pinned to the last processor probed. *)
Lemma restore_refused_leaves_pin :
  exists r : run,
    CPUCount machine_restore_refused (stale 0) (stale 0) (stale 0)
      caller_outputs sample_os = Some r /\
    affinity sample_os = 0xff /\
    affinity (os (final r)) = 0x80 /\
    affinity (os (final r)) <> affinity sample_os.
Proof.
  eexists. split; [vm_compute; reflexivity|].
  split; [reflexivity|]. split; [reflexivity|].
  cbn. discriminate.
Qed.

(** C9: on the sample machine with the pin to processor 0 refused, seven
    records are stored in slots 1..7 while [numLPEnabled] is 7: slot 7 lies
    outside [[0, 7)], slot 0 still holds the stale stack contents, and the
    counts computed from slots 0..6 depend on them (7 cores and 2 packages
    with one fill value, 7 and 1 with another). *)
Theorem skipped_pin_leaves_gap :
  exists r r' : run,
    CPUCount machine_pin0_refused (stale 0xCC) (stale 0xCC) (stale 0xCC)
      caller_outputs sample_os = Some r /\
    numLPEnabled (final r) = 7%nat /\
    index <$> procData (final r) = [1; 2; 3; 4; 5; 6; 7]%nat /\
    ~ table_invariant (final r) /\
    tblPkgID (final r) !! 0%nat = Some 0xCC /\
    tblCoreID (final r) !! 0%nat = Some 0xCC /\
    out r = {| totAvailLogical := 7; totAvailCore := 7; totPhysPack := 2 |} /\
    CPUCount machine_pin0_refused (stale 0) (stale 0) (stale 0)
      caller_outputs sample_os = Some r' /\
    out r' = {| totAvailLogical := 7; totAvailCore := 7; totPhysPack := 1 |}.
Proof.
  eexists. eexists.
  split; [vm_compute; reflexivity|].
  split; [reflexivity|]. split; [reflexivity|].
  split.
  { intros [_ Hall]. cbn [final procData numLPEnabled] in Hall.
    rewrite Forall_forall in Hall.
    assert (Hlt : (7 < 7)%nat); [|lia].
    refine (Hall (LPRecord 7 _ _ _ _ _) _).
    do 6 apply list_elem_of_further. apply list_elem_of_here. }
  split; [reflexivity|]. split; [reflexivity|]. split; [reflexivity|].
  split; [vm_compute; reflexivity|]. reflexivity.
Qed.

Section Totality.

Local Open Scope nat_scope.

(** With at most 256 configured processors, 256-slot tables and a log that
    fits [procData], [CPUCount] returns. *)
Lemma CPUCount_body_total (p : platform) (logicalPerPack corePerPack : Z)
    (uPkg uCore uSMT : list Z) (out0 : outputs) (os0 : os_state) :
  Z.to_nat (numProcessors p) ≤ 256 ->
  length uPkg = 256 -> length uCore = 256 -> length uSMT = 256 ->
  strlen (probe_record p logicalPerPack corePerPack
            (Z.quot logicalPerPack corePerPack) <$>
          accepted_pins p (calls os0) (Z.to_nat (numProcessors p)))
    < PROCDATA_SIZE ->
  exists r, CPUCount_body p logicalPerPack corePerPack uPkg uCore uSMT out0 os0
            = Some r.
Proof.
  intros HN Lp Lc Ls Hfit. unfold CPUCount_body.
  destruct (negb _); [eexists; reflexivity|].
  destruct (corePerPack <=? 0)%Z; [eexists; reflexivity|].
  destruct (probe_loop_total p logicalPerPack corePerPack
              (Z.quot logicalPerPack corePerPack) (calls os0)
              (Z.to_nat (numProcessors p)) 0
              (probe_init uPkg uCore uSMT os0)) as [st Hst];
    [cbn; lia | lia | exact Hfit |].
  rewrite Hst. cbn [mbind option_bind].
  pose proof (probe_loop_frame _ _ _ _ _ _ _ _ Hst) as [(L1 & L2 & _) _].
  pose proof (probe_loop_records _ _ _ _ _ _ _ _ Hst) as (new & _ & Hn & Hlen & _).
  cbn in L1, L2, Hn.
  destruct (misc_sched_setaffinity p (misc_sched_getaffinity os0) (os st))
    as [rc os'].
  destruct (countAvailableCores_total (tblPkgID st) (tblCoreID st)
              (numLPEnabled st)) as (cores & Hc & _); try lia.
  destruct (countPhysicalPacks_total (tblPkgID st) (numLPEnabled st))
    as (packs & Hp & _); try lia.
  rewrite Hc. cbn [mbind option_bind]. rewrite Hp. cbn [mbind option_bind].
  eexists. reflexivity.
Qed.

(** At most 21 lines of at most 96 characters always fit. *)
Lemma log_fits_21 (p : platform)
    (logicalPerPack corePerPack logicalPerCore : Z) (c0 n : nat) :
  n ≤ 21 ->
  strlen (probe_record p logicalPerPack corePerPack logicalPerCore <$>
          accepted_pins p c0 n) < PROCDATA_SIZE.
Proof.
  intros Hn. unfold accepted_pins, PROCDATA_SIZE.
  pose proof (strlen_bounds p logicalPerPack corePerPack logicalPerCore
                (List.filter (fun j => setaffinity_ok p (c0 + j)) (seq 0 n))) as Hb.
  pose proof (length_filter_seq (fun j => setaffinity_ok p (c0 + j)) 0 n) as Hl.
  lia.
Qed.

(** C10: [countAvailableCores] and [countPhysicalPacks] never return less
    than 1: the first bucket is counted before the loop, so with
    [numLPEnabled = 0] both return 1; on the 256-slot tables they return for
    every record count up to 256.  [CPUCount] sets both output counts to 1
    on entry: an early return (a configured processor missing from the
    mask, or [corePerPack <= 0]) hands them back as 1 with no other effect,
    and a completed probe, which happens whenever tables and log have room,
    replaces them by counts that are at least 1. *)
Theorem counts_at_least_one (tblPkgID tblCoreID : list Z) (n : nat) :
  (forall t, countAvailableCores tblPkgID tblCoreID n = Some t -> 1 ≤ t) /\
  (forall t, countPhysicalPacks tblPkgID n = Some t -> 1 ≤ t) /\
  (n ≤ 256 -> length tblPkgID = 256 -> length tblCoreID = 256 ->
   (exists t, countAvailableCores tblPkgID tblCoreID n = Some t /\ 1 ≤ t) /\
   (exists t, countPhysicalPacks tblPkgID n = Some t /\ 1 ≤ t)) /\
  (1 ≤ length tblPkgID -> 1 ≤ length tblCoreID ->
   countAvailableCores tblPkgID tblCoreID 0 = Some 1 /\
   countPhysicalPacks tblPkgID 0 = Some 1) /\
  (forall (p : platform) (logicalPerPack corePerPack : Z)
          (uPkg uCore uSMT : list Z) (out0 : outputs) (os0 : os_state) (r : run),
      CPUCount_body p logicalPerPack corePerPack uPkg uCore uSMT out0 os0
        = Some r ->
      (1 <= totAvailCore (out r))%Z /\ (1 <= totPhysPack (out r))%Z /\
      (result r = USER_CONFIG_ISSUE ->
       totAvailCore (out r) = 1%Z /\ totPhysPack (out r) = 1%Z)) /\
  (forall (p : platform) (logicalPerPack corePerPack : Z)
          (uPkg uCore uSMT : list Z) (out0 : outputs) (os0 : os_state),
      all_configured_enabled (affinity os0) 0 (Z.to_nat (numProcessors p)) = false
      \/ (corePerPack <= 0)%Z ->
      CPUCount_body p logicalPerPack corePerPack uPkg uCore uSMT out0 os0 =
      Some {| result := USER_CONFIG_ISSUE;
              out := {| totAvailLogical := totAvailLogical out0;
                        totAvailCore := 1; totPhysPack := 1 |};
              final := probe_init uPkg uCore uSMT os0 |}) /\
  (forall (p : platform) (logicalPerPack corePerPack : Z)
          (uPkg uCore uSMT : list Z) (out0 : outputs) (os0 : os_state),
      Z.to_nat (numProcessors p) ≤ 256 ->
      length uPkg = 256 -> length uCore = 256 -> length uSMT = 256 ->
      strlen (probe_record p logicalPerPack corePerPack
                (Z.quot logicalPerPack corePerPack) <$>
              accepted_pins p (calls os0) (Z.to_nat (numProcessors p)))
        < PROCDATA_SIZE ->
      exists r : run,
        CPUCount_body p logicalPerPack corePerPack uPkg uCore uSMT out0 os0
          = Some r /\
        (1 <= totAvailCore (out r))%Z /\ (1 <= totPhysPack (out r))%Z).
Proof.
  assert (Hruns : forall (p : platform) (logicalPerPack corePerPack : Z)
          (uPkg uCore uSMT : list Z) (out0 : outputs) (os0 : os_state) (r : run),
      CPUCount_body p logicalPerPack corePerPack uPkg uCore uSMT out0 os0
        = Some r ->
      (1 <= totAvailCore (out r))%Z /\ (1 <= totPhysPack (out r))%Z /\
      (result r = USER_CONFIG_ISSUE ->
       totAvailCore (out r) = 1%Z /\ totPhysPack (out r) = 1%Z)).
  { intros p lpp cpp uPkg uCore uSMT out0 os0 r Hrun.
    apply CPUCount_body_cases in Hrun as
      [[_ ->] | (_ & _ & st & cores & packs & _ & Hc & Hp & ->)].
    { cbn. repeat split; lia. }
    cbn [out result totAvailCore totPhysPack].
    apply countAvailableCores_ge_1 in Hc.
    rewrite countPhysicalPacks_as_cores in Hp. apply countAvailableCores_ge_1 in Hp.
    split; [lia|]. split; [lia|].
    intros H. contradiction (CPUCount_classify_not_issue _ _ _ _ H). }
  split; [intros t; apply countAvailableCores_ge_1|].
  split.
  { intros t. rewrite countPhysicalPacks_as_cores. apply countAvailableCores_ge_1. }
  split.
  { intros Hn Lp Lc. split.
    - apply countAvailableCores_total; lia.
    - apply countPhysicalPacks_total; lia. }
  split.
  { intros Lp Lc. split.
    - apply countAvailableCores_empty; assumption.
    - rewrite countPhysicalPacks_as_cores.
      apply countAvailableCores_empty; assumption. }
  split; [exact Hruns|].
  split.
  { intros p lpp cpp uPkg uCore uSMT out0 os0 H.
    unfold CPUCount_body, misc_sched_getaffinity.
    destruct H as [H | H].
    - rewrite H. reflexivity.
    - destruct (negb _); [reflexivity|].
      apply Z.leb_le in H. rewrite H. reflexivity. }
  intros p lpp cpp uPkg uCore uSMT out0 os0 HN Lp Lc Ls Hfit.
  destruct (CPUCount_body_total p lpp cpp uPkg uCore uSMT out0 os0
              HN Lp Lc Ls Hfit) as [r Hr].
  exists r. split; [exact Hr|].
  destruct (Hruns _ _ _ _ _ _ _ _ _ Hr) as (H1 & H2 & _). auto.
Qed.

End Totality.

Lemma counts_at_least_one_witness :
  countAvailableCores (stale 0xCC) (stale 0xCC) 0 = Some 1%nat /\
  countPhysicalPacks (stale 0xCC) 0 = Some 1%nat.
Proof.
  refine (proj1 (proj2 (proj2 (proj2
            (counts_at_least_one (stale 0xCC) (stale 0xCC) 0)))) _ _);
    vm_compute; lia.
Defined.

(** * Further properties of the code *)

Section BitfieldMore.

(** Bit [i] of the sub-id of an 8-bit id. *)
Lemma getSubID_testbit (fullID maxSubIDValue shiftCount i : Z) :
  0 <= fullID < 256 -> 0 <= shiftCount ->
  shiftCount + find_maskwidth maxSubIDValue < 32 -> 0 <= i ->
  Z.testbit (getSubID fullID maxSubIDValue shiftCount) i =
  Z.testbit fullID i && (shiftCount <=? i)
    && (i <? shiftCount + find_maskwidth maxSubIDValue).
Proof.
  intros Hx Hs Hw Hi.
  pose proof (find_maskwidth_range maxSubIDValue) as Hr.
  unfold getSubID.
  rewrite Z.land_spec, Z.lxor_spec.
  rewrite (wrap32_small (shiftCount + find_maskwidth maxSubIDValue)) by lia.
  rewrite !shl32_ff_testbit by lia.
  destruct (Z.lt_ge_cases i 8) as [Hlt|Hge].
  - destruct (Z.testbit fullID i); [|reflexivity].
    destruct (i <? 32) eqn:E0, (shiftCount <=? i) eqn:E1,
      (i <? shiftCount + 8) eqn:E2,
      (shiftCount + find_maskwidth maxSubIDValue <=? i) eqn:E3,
      (i <? shiftCount + find_maskwidth maxSubIDValue + 8) eqn:E4,
      (i <? shiftCount + find_maskwidth maxSubIDValue) eqn:E5;
      simpl; try reflexivity; lia.
  - rewrite (byte_testbit_high fullID i) by lia. reflexivity.
Qed.

(** X2: on an 8-bit id, [getSubID] is the id masked with the contiguous
    field of [find_maskwidth maxSubIDValue] bits at [shiftCount], left in
    place (not shifted down); the result is again an 8-bit value. *)
Theorem getSubID_is_field (fullID maxSubIDValue shiftCount : Z)
    (Hid : 0 <= fullID < 256) (Hshift : 0 <= shiftCount)
    (Hfit : shiftCount + find_maskwidth maxSubIDValue < 32) :
  getSubID fullID maxSubIDValue shiftCount =
    Z.land fullID (field_mask (find_maskwidth maxSubIDValue) shiftCount) /\
  0 <= getSubID fullID maxSubIDValue shiftCount <= fullID.
Proof.
  pose proof (find_maskwidth_range maxSubIDValue) as Hr.
  split.
  - apply Z.bits_inj'. intros i Hi.
    rewrite getSubID_testbit by assumption.
    rewrite Z.land_spec. unfold field_mask.
    rewrite Z.shiftl_spec, Z.testbit_ones by lia.
    destruct (Z.testbit fullID i); [|reflexivity]. simpl.
    destruct (shiftCount <=? i) eqn:E1,
      (i <? shiftCount + find_maskwidth maxSubIDValue) eqn:E2,
      (0 <=? i - shiftCount) eqn:E3,
      (i - shiftCount <? find_maskwidth maxSubIDValue) eqn:E4;
      simpl; try reflexivity; lia.
  - unfold getSubID. apply land_below. lia.
Qed.

End BitfieldMore.

Section BucketsMore.

Local Open Scope nat_scope.

Lemma scan_bucket_result (key : Z) (bucket : list Z) :
  forall (steps i k : nat) (found : bool),
    scan_bucket key bucket i steps = Some (found, k) ->
    (forall m, i ≤ m < k -> bucket !! m ≠ Some key) /\
    if found then i ≤ k < i + steps /\ bucket !! k = Some key
    else k = i + steps.
Proof.
  induction steps as [|steps IH]; intros i k found H.
  - cbn in H. injection H as <- <-. split; [intros m Hm; lia | lia].
  - cbn [scan_bucket] in H.
    destruct (bucket !! i) as [b|] eqn:Hb; [|discriminate].
    cbn in H. case_bool_decide as Hk.
    + injection H as <- <-. subst b.
      split; [intros m Hm; lia|]. split; [lia | exact Hb].
    + apply IH in H. destruct H as [Hbefore Hres]. split.
      * intros m Hm. destruct (decide (m = i)) as [-> | Hne].
        -- rewrite Hb. congruence.
        -- apply Hbefore. lia.
      * destruct found; [|lia].
        destruct Hres as [Hr Hv]. split; [lia | exact Hv].
Qed.

(** X4: the bucket scan stops at the first bucket equal to the key: when
    it reports a match at [k], bucket [k] holds the key and no earlier
    bucket does; when it reports none, it has compared all [total] buckets
    and leaves [i = total], the slot the caller fills next.  It always
    returns when the [total] buckets exist. *)
Theorem scan_bucket_first_match (key : Z) (bucket : list Z) (total : nat) :
  (forall k, scan_bucket key bucket 0 total = Some (true, k) ->
     k < total /\ bucket !! k = Some key /\
     forall m, m < k -> bucket !! m ≠ Some key) /\
  (forall k, scan_bucket key bucket 0 total = Some (false, k) ->
     k = total /\ forall m, m < total -> bucket !! m ≠ Some key) /\
  (total ≤ length bucket -> is_Some (scan_bucket key bucket 0 total)).
Proof.
  split; [|split].
  - intros k H. apply scan_bucket_result in H as [Hb [Hk Hv]].
    split; [lia|]. split; [exact Hv|]. intros m Hm. apply Hb. lia.
  - intros k H. apply scan_bucket_result in H as [Hb Hk].
    cbn in Hk. subst k. split; [reflexivity|]. intros m Hm. apply Hb. lia.
  - intros Hlen.
    destruct (scan_bucket_cases key bucket total Hlen) as [[_ [k ->]] | [_ ->]];
      eexists; reflexivity.
Qed.

Lemma distinct_le_length (l : list Z) : distinct l ≤ length l.
Proof.
  induction l as [|x l IH] using rev_ind.
  - unfold distinct. cbn. rewrite size_empty. lia.
  - pose proof (distinct_snoc_le l x). rewrite length_app. cbn. lia.
Qed.

Lemma length_core_keys (tblPkgID tblCoreID : list Z) (n : nat) :
  n ≤ length tblPkgID -> n ≤ length tblCoreID ->
  length (core_keys tblPkgID tblCoreID n) = n.
Proof.
  intros Hp Hc. unfold core_keys.
  rewrite length_take_le; [reflexivity|]. rewrite length_zip_with. lia.
Qed.

(** X5: for a table of [n] records (at least one, and room for one more
    within 256), the core count is between 1 and [n], and counting one
    more record adds one exactly when its key [packageId | coreId] does not
    occur among the first [n]; the package count behaves the same way on
    [packageId]. *)
Theorem count_one_more_record (tblPkgID tblCoreID : list Z) (n : nat) (pk co : Z)
    (Hn : 1 ≤ n < 256)
    (Hp : tblPkgID !! n = Some pk) (Hc : tblCoreID !! n = Some co) :
  exists cores packs : nat,
    countAvailableCores tblPkgID tblCoreID n = Some cores /\
    countPhysicalPacks tblPkgID n = Some packs /\
    1 ≤ cores ≤ n /\ 1 ≤ packs ≤ n /\
    countAvailableCores tblPkgID tblCoreID (S n) =
      Some (if decide (Z.lor pk co ∈ core_keys tblPkgID tblCoreID n)
            then cores else S cores) /\
    countPhysicalPacks tblPkgID (S n) =
      Some (if decide (pk ∈ pack_keys tblPkgID n) then packs else S packs).
Proof.
  pose proof (lookup_lt_Some _ _ _ Hp) as Lp.
  pose proof (lookup_lt_Some _ _ _ Hc) as Lc.
  exists (distinct (core_keys tblPkgID tblCoreID n)),
         (distinct (pack_keys tblPkgID n)).
  split; [apply countAvailableCores_distinct; lia|].
  split; [apply countPhysicalPacks_distinct; lia|].
  assert (Hcores : 1 ≤ distinct (core_keys tblPkgID tblCoreID n)).
  { eapply countAvailableCores_ge_1, countAvailableCores_distinct; lia. }
  assert (Hpacks : 1 ≤ distinct (pack_keys tblPkgID n)).
  { eapply countAvailableCores_ge_1. rewrite <- countPhysicalPacks_as_cores.
    apply countPhysicalPacks_distinct; lia. }
  pose proof (distinct_le_length (core_keys tblPkgID tblCoreID n)) as Hle1.
  rewrite length_core_keys in Hle1 by lia.
  pose proof (distinct_le_length (pack_keys tblPkgID n)) as Hle2.
  unfold pack_keys in Hle2 at 2. rewrite length_take_le in Hle2 by lia.
  split; [lia|]. split; [lia|]. split.
  - rewrite countAvailableCores_distinct by lia.
    rewrite (core_keys_S _ _ _ _ _ Hp Hc). f_equal.
    case_decide as Hin.
    + apply distinct_snoc_in, Hin.
    + apply distinct_snoc_notin, Hin.
  - rewrite countPhysicalPacks_distinct by lia.
    unfold pack_keys. rewrite (take_S_r _ _ _ Hp). f_equal.
    case_decide as Hin.
    + apply distinct_snoc_in, Hin.
    + apply distinct_snoc_notin, Hin.
Qed.

End BucketsMore.

Lemma scan_bucket_first_match_witness :
  (1 < 3)%nat /\ [7; 9; 9] !! 1%nat = Some 9 /\
  forall m, (m < 1)%nat -> [7; 9; 9] !! m ≠ Some 9.
Proof.
  refine (proj1 (scan_bucket_first_match 9 [7; 9; 9] 3) 1%nat _).
  vm_compute. reflexivity.
Defined.

Lemma count_one_more_record_witness :
  exists cores packs : nat,
    countAvailableCores [0; 0; 2; 2] [0; 1; 0; 1] 3 = Some cores /\
    countPhysicalPacks [0; 0; 2; 2] 3 = Some packs /\
    (1 <= cores <= 3)%nat /\ (1 <= packs <= 3)%nat /\
    countAvailableCores [0; 0; 2; 2] [0; 1; 0; 1] 4 =
      Some (if decide (Z.lor 2 1 ∈ core_keys [0; 0; 2; 2] [0; 1; 0; 1] 3)
            then cores else S cores) /\
    countPhysicalPacks [0; 0; 2; 2] 4 =
      Some (if decide (2 ∈ pack_keys [0; 0; 2; 2] 3) then packs else S packs).
Proof.
  apply (count_one_more_record [0; 0; 2; 2] [0; 1; 0; 1] 3 2 1);
    [lia | reflexivity | reflexivity].
Defined.

Section ProbeMore.

Local Open Scope nat_scope.

Lemma all_configured_enabled_true (mask : Z) :
  forall steps i,
    all_configured_enabled mask i steps = true <->
    forall k, i ≤ k < i + steps -> CPU_ISSET k mask = true.
Proof.
  induction steps as [|steps IH]; intros i.
  - cbn. split; [intros _ k Hk; lia | reflexivity].
  - cbn [all_configured_enabled].
    destruct (CPU_ISSET i mask) eqn:E.
    + rewrite IH. split; intros H k Hk.
      * destruct (decide (k = i)) as [-> | Hne]; [exact E | apply H; lia].
      * apply H. lia.
    + split; [discriminate|]. intros H. rewrite H in E by lia. discriminate.
Qed.

Lemma all_configured_enabled_false (mask : Z) (n : nat) :
  all_configured_enabled mask 0 n = false <->
  exists i, i < n /\ CPU_ISSET i mask = false.
Proof.
  split.
  - induction n as [|n IH].
    + discriminate.
    + intros H.
      destruct (all_configured_enabled mask 0 n) eqn:En.
      * exists n. split; [lia|].
        destruct (CPU_ISSET n mask) eqn:E; [|reflexivity]. exfalso.
        assert (Hall : all_configured_enabled mask 0 (S n) = true).
        { apply all_configured_enabled_true. intros k Hk.
          destruct (decide (k = n)) as [-> | Hne]; [exact E|].
          apply (proj1 (all_configured_enabled_true mask n 0) En). lia. }
        congruence.
      * destruct (IH eq_refl) as (i & Hi & Hset). exists i. split; [lia|exact Hset].
  - intros (i & Hi & Hset).
    destruct (all_configured_enabled mask 0 n) eqn:E; [|reflexivity].
    rewrite (proj1 (all_configured_enabled_true mask n 0) E i) in Hset by lia.
    discriminate.
Qed.

End ProbeMore.

Section EarlyReturn.

Local Open Scope nat_scope.

(** X6: [CPUCount] reports [USER_CONFIG_ISSUE] exactly when one of the
    configured processors [0 .. numProcessors-1] is missing from the
    affinity mask on entry (always so with more than [CPU_SETSIZE]
    processors); it then returns before any scheduler call, stores or log
    entry, with both counts 1 and [*totAvailLogical] not written.  The
    [corePerPack <= 0] return is never taken: CPUID yields 1 to 64 cores. *)
Theorem user_config_issue_iff (p : platform) (uPkg uCore uSMT : list Z)
    (out0 : outputs) (os0 : os_state) :
  ((exists i, i < Z.to_nat (numProcessors p) /\
              CPU_ISSET i (affinity os0) = false) ->
   CPUCount p uPkg uCore uSMT out0 os0 =
     Some {| result := USER_CONFIG_ISSUE;
             out := {| totAvailLogical := totAvailLogical out0;
                       totAvailCore := 1; totPhysPack := 1 |};
             final := probe_init uPkg uCore uSMT os0 |}) /\
  (forall r, CPUCount p uPkg uCore uSMT out0 os0 = Some r ->
             result r = USER_CONFIG_ISSUE ->
             exists i, i < Z.to_nat (numProcessors p) /\
                       CPU_ISSET i (affinity os0) = false) /\
  (CPU_SETSIZE < Z.to_nat (numProcessors p) ->
   exists i, i < Z.to_nat (numProcessors p) /\
             CPU_ISSET i (affinity os0) = false).
Proof.
  split; [|split].
  - intros Hmiss. apply all_configured_enabled_false in Hmiss.
    unfold CPUCount, CPUCount_body, misc_sched_getaffinity.
    rewrite Hmiss. reflexivity.
  - intros r Hrun Hres. unfold CPUCount in Hrun.
    apply CPUCount_body_cases in Hrun as
      [[[Hen | Hcpp] _] | (_ & _ & st & cores & packs & _ & _ & _ & ->)].
    + apply all_configured_enabled_false, Hen.
    + pose proof (multiCoresPerProcPak_range p (entry_cpu p)). lia.
    + contradiction (CPUCount_classify_not_issue _ _ _ _ Hres).
  - intros Hbig. exists CPU_SETSIZE. split; [exact Hbig|].
    unfold CPU_ISSET. destruct (decide (CPU_SETSIZE < CPU_SETSIZE)); [lia|reflexivity].
Qed.

End EarlyReturn.

Lemma user_config_issue_iff_witness :
  CPUCount machine_ok (stale 0xCC) (stale 0xCC) (stale 0xCC) caller_outputs
    {| affinity := 0xf7; calls := 0 |} =
  Some {| result := USER_CONFIG_ISSUE;
          out := {| totAvailLogical := 0; totAvailCore := 1; totPhysPack := 1 |};
          final := probe_init (stale 0xCC) (stale 0xCC) (stale 0xCC)
                     {| affinity := 0xf7; calls := 0 |} |}.
Proof.
  refine (proj1 (user_config_issue_iff machine_ok (stale 0xCC) (stale 0xCC)
                   (stale 0xCC) caller_outputs {| affinity := 0xf7; calls := 0 |}) _).
  exists 3%nat. split; [vm_compute; lia | reflexivity].
Defined.

Section ProbeLog.

Local Open Scope nat_scope.

Variable p : platform.
Variables logicalPerPack corePerPack logicalPerCore : Z.

Local Abbreviation loop := (probe_loop p logicalPerPack corePerPack logicalPerCore).
Local Abbreviation rec := (probe_record p logicalPerPack corePerPack logicalPerCore).

(** The log and the counter after the loop: one record per accepted pin,
    in processor order. *)
Lemma probe_loop_log (c0 : nat) :
  forall (steps j : nat) (st st' : probe),
    calls (os st) = c0 + j ->
    loop j steps st = Some st' ->
    procData st' =
      procData st ++
      (rec <$> List.filter (fun k => setaffinity_ok p (c0 + k)) (seq j steps)) /\
    numLPEnabled st' =
      numLPEnabled st +
      length (List.filter (fun k => setaffinity_ok p (c0 + k)) (seq j steps)).
Proof.
  induction steps as [|steps IH]; intros j st st' Hc H.
  - cbn in H. injection H as <-. cbn. rewrite app_nil_r. split; [reflexivity|lia].
  - rewrite probe_loop_step in H. cbn [seq List.filter].
    rewrite Hc in H.
    destruct (setaffinity_ok p (c0 + j)).
    + destruct (decide _) as [(Hj & Hline & Hlog)|]; [|discriminate].
      apply IH in H; [|cbn; lia]. destruct H as [Hpd Hn].
      cbn in Hpd, Hn. rewrite Hpd, Hn, <- app_assoc. cbn.
      split; [reflexivity|lia].
    + apply IH in H; [|cbn; lia]. destruct H as [Hpd Hn].
      cbn in Hpd, Hn. rewrite Hpd, Hn. split; reflexivity.
Qed.

(** The log that the loop leaves fits [procData]. *)
Lemma probe_loop_fits :
  forall (steps j : nat) (st st' : probe),
    loop j steps st = Some st' ->
    strlen (procData st) < PROCDATA_SIZE ->
    strlen (procData st') < PROCDATA_SIZE.
Proof.
  induction steps as [|steps IH]; intros j st st' H Hfit.
  - cbn in H. injection H as <-. exact Hfit.
  - rewrite probe_loop_step in H.
    destruct (setaffinity_ok p (calls (os st))).
    + destruct (decide _) as [(Hj & Hline & Hlog)|]; [|discriminate].
      apply IH in H; [exact H|].
      cbn [probe_store procData]. rewrite strlen_app, strlen_cons.
      change (strlen []) with 0. lia.
    + apply IH in H; [exact H | exact Hfit].
Qed.

(** A log that does not fit [procData] is written past its end. *)
Lemma probe_loop_log_overflow (c0 : nat) :
  forall (steps j : nat) (st : probe),
    calls (os st) = c0 + j ->
    PROCDATA_SIZE ≤
      strlen (procData st) +
      strlen (rec <$> List.filter (fun k => setaffinity_ok p (c0 + k)) (seq j steps)) ->
    strlen (procData st) < PROCDATA_SIZE ->
    loop j steps st = None.
Proof.
  induction steps as [|steps IH]; intros j st Hc Hbig Hfit.
  - cbn in Hbig. lia.
  - rewrite probe_loop_step, Hc. cbn [seq List.filter] in Hbig.
    destruct (setaffinity_ok p (c0 + j)).
    + rewrite fmap_cons, strlen_cons in Hbig.
      destruct (decide _) as [(Hj & Hline & Hlog)|]; [|reflexivity].
      apply IH; [cbn; lia | |];
        cbn [probe_store procData]; rewrite strlen_app, strlen_cons;
        change (strlen []) with 0; lia.
    + apply IH; [cbn; lia | exact Hbig | exact Hfit].
Qed.

End ProbeLog.

Section AcceptedPins.

Local Open Scope nat_scope.

(** X7: when [CPUCount] completes the probe, its log holds exactly one
    record per accepted pin, in increasing processor order, each the
    record read on that processor; [numLPEnabled] and [*totAvailLogical]
    are the number of accepted pins, and the run has made one scheduler
    call per configured processor plus the restoring one. *)
Theorem log_is_accepted_pins (p : platform) (logicalPerPack corePerPack : Z)
    (uPkg uCore uSMT : list Z) (out0 : outputs) (os0 : os_state) (r : run)
    (Hrun : CPUCount_body p logicalPerPack corePerPack uPkg uCore uSMT out0 os0
            = Some r)
    (Hres : result r <> USER_CONFIG_ISSUE) :
  let n := Z.to_nat (numProcessors p) in
  let pins := accepted_pins p (calls os0) n in
  procData (final r) =
    probe_record p logicalPerPack corePerPack
      (Z.quot logicalPerPack corePerPack) <$> pins /\
  index <$> procData (final r) = pins /\
  numLPEnabled (final r) = length pins /\
  totAvailLogical (out r) = Z.of_nat (length pins) /\
  calls (os (final r)) = calls os0 + n + 1.
Proof.
  intros n pins.
  apply CPUCount_body_cases in Hrun as
    [[_ ->] | (_ & _ & st & cores & packs & Hloop & _ & _ & ->)].
  { cbn in Hres. contradiction. }
  cbn [final out with_os procData numLPEnabled totAvailLogical os].
  pose proof (probe_loop_calls _ _ _ _ _ _ _ _ Hloop) as Hcalls.
  apply (probe_loop_log p _ _ _ (calls os0)) in Hloop; [|cbn; lia].
  destruct Hloop as [Hpd Hn]. cbn in Hpd, Hn, Hcalls.
  fold n in Hpd, Hn, Hcalls. fold (accepted_pins p (calls os0) n) in Hpd, Hn.
  fold pins in Hpd, Hn.
  split; [exact Hpd|]. split.
  { rewrite Hpd, <- list_fmap_compose. apply list_fmap_id. }
  split; [exact Hn|]. split; [rewrite Hn; reflexivity|].
  unfold misc_sched_setaffinity.
  destruct (setaffinity_ok p (calls (os st))); cbn; lia.
Qed.

End AcceptedPins.

Lemma log_is_accepted_pins_witness :
  exists r : run,
    CPUCount_body machine_pin0_refused 4 2 (stale 0xCC) (stale 0xCC) (stale 0xCC)
      caller_outputs sample_os = Some r /\
    index <$> procData (final r) = [1; 2; 3; 4; 5; 6; 7]%nat /\
    index <$> procData (final r) =
      accepted_pins machine_pin0_refused (calls sample_os)
        (Z.to_nat (numProcessors machine_pin0_refused)).
Proof.
  eexists. split; [vm_compute; reflexivity|]. split; [reflexivity|].
  refine (proj1 (proj2 (log_is_accepted_pins machine_pin0_refused 4 2
                          (stale 0xCC) (stale 0xCC) (stale 0xCC)
                          caller_outputs sample_os _ _ _))).
  - vm_compute. reflexivity.
  - cbn. discriminate.
Defined.

Section FullProbe.

Local Open Scope nat_scope.

Lemma filter_all (f : nat -> bool) (l : list nat) :
  (forall k, k ∈ l -> f k = true) -> List.filter f l = l.
Proof.
  induction l as [|x l IH]; intros H; [reflexivity|].
  cbn. rewrite (H x) by apply list_elem_of_here.
  f_equal. apply IH. intros k Hk. apply H, list_elem_of_further, Hk.
Qed.

Lemma accepted_pins_all (p : platform) (c0 n : nat) :
  (forall k, k < n -> setaffinity_ok p (c0 + k) = true) ->
  accepted_pins p c0 n = seq 0 n.
Proof.
  intros H. unfold accepted_pins. apply filter_all.
  intros k Hk. apply elem_of_seq in Hk. apply H. lia.
Qed.

(** The package id is recovered from the key by the package mask. *)
Lemma package_of_key (a maskPkg maskCore : Z) :
  Z.land (Z.lor (Z.land a maskPkg) (Z.land a maskCore)) maskPkg =
  Z.land a maskPkg.
Proof.
  apply Z.bits_inj'. intros i Hi.
  rewrite !Z.land_spec, Z.lor_spec, !Z.land_spec.
  destruct (Z.testbit a i), (Z.testbit maskPkg i), (Z.testbit maskCore i);
    reflexivity.
Qed.

Lemma dup_of_distinct_lt (l : list Z) :
  distinct l < length l ->
  exists i j x, i < j /\ l !! i = Some x /\ l !! j = Some x.
Proof.
  induction l as [|x l IH] using rev_ind; intros H.
  - cbn in H. lia.
  - rewrite length_app in H. cbn in H.
    destruct (decide (x ∈ l)) as [Hin|Hnin].
    + apply list_elem_of_lookup_1 in Hin as [i Hi].
      pose proof (lookup_lt_Some _ _ _ Hi) as Hlt.
      exists i, (length l), x. split; [exact Hlt|]. split.
      * rewrite lookup_app_l by exact Hlt. exact Hi.
      * apply list_lookup_middle. reflexivity.
    + rewrite distinct_snoc_notin in H by exact Hnin.
      destruct IH as (i & j & y & Hij & Hi & Hj); [lia|].
      exists i, j, y. split; [exact Hij|].
      split; apply lookup_app_l_Some; assumption.
Qed.

Lemma NoDup_of_distinct_eq (l : list Z) : distinct l = length l -> NoDup l.
Proof.
  induction l as [|x l IH] using rev_ind; intros H; [constructor|].
  rewrite length_app in H. cbn in H.
  pose proof (distinct_le_length l) as Hle.
  destruct (decide (x ∈ l)) as [Hin|Hnin].
  - rewrite distinct_snoc_in in H by exact Hin. lia.
  - rewrite distinct_snoc_notin in H by exact Hnin.
    apply NoDup_app. split; [apply IH; lia|]. split.
    + intros y Hy Hy'. apply list_elem_of_singleton in Hy'. subst y. contradiction.
    + apply NoDup_singleton.
Qed.

Variable p : platform.
Variables logicalPerPack corePerPack : Z.
Variables uPkg uCore uSMT : list Z.
Variable out0 : outputs.
Variable os0 : os_state.

Local Abbreviation n := (Z.to_nat (numProcessors p)).
Local Abbreviation logicalPerCore := (Z.quot logicalPerPack corePerPack).
Local Abbreviation rec :=
  (probe_record p logicalPerPack corePerPack logicalPerCore).

Hypothesis Hn : 1 ≤ n ≤ 256.
Hypothesis Hmask : forall i, i < n -> CPU_ISSET i (affinity os0) = true.
Hypothesis Hcores : (0 < corePerPack)%Z.
Hypothesis Hpins : forall k, k < n -> setaffinity_ok p (calls os0 + k) = true.
Hypothesis Lp : length uPkg = 256.
Hypothesis Lc : length uCore = 256.
Hypothesis Ls : length uSMT = 256.
Hypothesis Hlog : strlen (rec <$> seq 0 n) < PROCDATA_SIZE.

(** A probe in which every configured processor is enabled, every pin is
    accepted and the log fits [procData]: the tables hold the ids of
    processors [0 .. n-1] and the counts are the numbers of distinct
    keys. *)
Lemma full_probe_run :
  exists (st : probe) (cores packs : nat),
    CPUCount_body p logicalPerPack corePerPack uPkg uCore uSMT out0 os0 =
      Some {| result := CPUCount_classify (Z.of_nat cores) (Z.of_nat packs)
                          logicalPerCore (Z.of_nat n);
              out := {| totAvailLogical := Z.of_nat n;
                        totAvailCore := Z.of_nat cores;
                        totPhysPack := Z.of_nat packs |};
              final := with_os st
                         (snd (misc_sched_setaffinity p (affinity os0) (os st))) |} /\
    numLPEnabled st = n /\
    procData st = rec <$> seq 0 n /\
    (forall i, i < n ->
       tblPkgID st !! i = Some (packageId (rec i)) /\
       tblCoreID st !! i = Some (coreId (rec i)) /\
       tblSMTID st !! i = Some (smtId (rec i))) /\
    cores = distinct (machine_core_keys p logicalPerPack corePerPack logicalPerCore n) /\
    packs = distinct (machine_pack_keys p logicalPerPack corePerPack logicalPerCore n) /\
    1 ≤ packs /\ packs ≤ cores /\ cores ≤ n.
Proof.
  assert (Hfit : strlen (rec <$> accepted_pins p (calls os0) n) < PROCDATA_SIZE)
    by (rewrite (accepted_pins_all _ _ _ Hpins); exact Hlog).
  destruct (CPUCount_body_total p logicalPerPack corePerPack uPkg uCore uSMT
              out0 os0 ltac:(lia) Lp Lc Ls Hfit) as [r Hrun].
  pose proof Hrun as Hcases.
  apply CPUCount_body_cases in Hcases as
    [[[Hen | Hcpp] _] | (_ & _ & st & cores & packs & Hloop & Hc & Hp & ->)].
  { apply all_configured_enabled_false in Hen as (i & Hi & Hset).
    rewrite Hmask in Hset by exact Hi. discriminate. }
  { lia. }
  pose proof (probe_loop_frame _ _ _ _ _ _ _ _ Hloop) as [(L1 & L2 & L3) _].
  cbn in L1, L2, L3.
  pose proof (probe_loop_records _ _ _ _ _ _ _ _ Hloop) as (new & Hnew & _ & _ & Hall).
  assert (Hc0 : calls (os (probe_init uPkg uCore uSMT os0)) = calls os0 + 0)
    by (cbn; lia).
  pose proof (probe_loop_log p _ _ _ (calls os0) _ _ _ _ Hc0 Hloop) as [Hpd Hnum].
  fold (accepted_pins p (calls os0) n) in Hpd, Hnum.
  rewrite (accepted_pins_all _ _ _ Hpins) in Hpd, Hnum.
  cbn in Hpd, Hnum, Hnew. rewrite length_seq in Hnum.
  assert (Hslots : forall i, i < n ->
            tblPkgID st !! i = Some (packageId (rec i)) /\
            tblCoreID st !! i = Some (coreId (rec i)) /\
            tblSMTID st !! i = Some (smtId (rec i))).
  { intros i Hi. rewrite Forall_forall in Hall.
    assert (Hin : rec i ∈ new).
    { rewrite <- Hnew, Hpd. apply list_elem_of_fmap_2, elem_of_seq. lia. }
    destruct (Hall _ Hin) as (_ & _ & _ & H1 & H2 & H3).
    cbn [index probe_record probe_init tblPkgID tblCoreID tblSMTID] in H1, H2, H3.
    rewrite Lp in H1. rewrite Lc in H2. rewrite Ls in H3.
    repeat split; [apply H1 | apply H2 | apply H3]; lia. }
  assert (Hkeys : core_keys (tblPkgID st) (tblCoreID st) n =
                  machine_core_keys p logicalPerPack corePerPack logicalPerCore n).
  { apply list_eq. intros i. unfold core_keys, machine_core_keys.
    rewrite list_lookup_fmap.
    destruct (decide (i < n)) as [Hi|Hi].
    - rewrite lookup_take_lt by exact Hi. rewrite lookup_zip_with.
      destruct (Hslots i Hi) as (H1 & H2 & _). rewrite H1. cbn. rewrite H2. cbn.
      rewrite lookup_seq_lt by exact Hi. reflexivity.
    - rewrite lookup_take_ge by lia. rewrite lookup_seq_ge by lia. reflexivity. }
  assert (Hpkeys : pack_keys (tblPkgID st) n =
                   machine_pack_keys p logicalPerPack corePerPack logicalPerCore n).
  { apply list_eq. intros i. unfold pack_keys, machine_pack_keys.
    rewrite list_lookup_fmap.
    destruct (decide (i < n)) as [Hi|Hi].
    - rewrite lookup_take_lt by exact Hi.
      destruct (Hslots i Hi) as (H1 & _). rewrite H1.
      rewrite lookup_seq_lt by exact Hi. reflexivity.
    - rewrite lookup_take_ge by lia. rewrite lookup_seq_ge by lia. reflexivity. }
  rewrite Hnum in Hc, Hp, Hrun.
  pose proof Hc as Hc'. pose proof Hp as Hp'.
  rewrite countAvailableCores_distinct in Hc' by lia.
  rewrite countPhysicalPacks_distinct in Hp' by lia.
  injection Hc' as Hc'. injection Hp' as Hp'.
  exists st, cores, packs.
  split; [exact Hrun|]. split; [exact Hnum|]. split; [exact Hpd|].
  split; [exact Hslots|].
  split; [rewrite <- Hkeys; symmetry; exact Hc'|].
  split; [rewrite <- Hpkeys; symmetry; exact Hp'|].
  split.
  { eapply countAvailableCores_ge_1. rewrite <- countPhysicalPacks_as_cores.
    exact Hp. }
  split.
  { rewrite <- Hc', <- Hp'.
    apply (distinct_packs_le_cores (tblPkgID st) (tblCoreID st) n); try lia.
    intros i j pk co pk' co' Hi Hj Hpi Hci Hpj Hcj Hk.
    destruct (Hslots i Hi) as (H1 & H2 & _).
    destruct (Hslots j Hj) as (H3 & H4 & _).
    rewrite Hpi in H1. rewrite Hci in H2. rewrite Hpj in H3. rewrite Hcj in H4.
    injection H1 as ->. injection H2 as ->. injection H3 as ->. injection H4 as ->.
    cbn [packageId coreId probe_record] in *. unfold getSubID in Hk.
    match type of Hk with
    | Z.lor (Z.land ?a ?M) (Z.land ?a ?C) = _ =>
        transitivity (Z.land (Z.lor (Z.land a M) (Z.land a C)) M);
          [symmetry; apply package_of_key|]
    end.
    rewrite Hk. apply package_of_key. }
  rewrite <- Hc'.
  pose proof (distinct_le_length (core_keys (tblPkgID st) (tblCoreID st) n)) as Hle.
  rewrite length_core_keys in Hle by lia. exact Hle.
Qed.

End FullProbe.

Section FullProbeClaims.

Local Open Scope nat_scope.

(** X8: when every configured processor (at least one, at most 256) is
    enabled, every pin is accepted and the lines of all processors fit the
    2048 characters of [procData], [CPUCount] returns a capability
    status with [*totAvailLogical] the number of processors, slot [i] of
    the tables holding the ids of processor [i], [*totAvailCore] the number
    of distinct keys [packageId | coreId] and [*totPhysPack] the number of
    distinct package ids of the processors, and
    [1 <= packages <= cores <= logical processors]. *)
Theorem full_probe_counts (p : platform) (logicalPerPack corePerPack : Z)
    (uPkg uCore uSMT : list Z) (out0 : outputs) (os0 : os_state)
    (Hn : 1 ≤ Z.to_nat (numProcessors p) ≤ 256)
    (Hmask : forall i, i < Z.to_nat (numProcessors p) ->
                       CPU_ISSET i (affinity os0) = true)
    (Hcores : (0 < corePerPack)%Z)
    (Hpins : forall k, k < Z.to_nat (numProcessors p) ->
                       setaffinity_ok p (calls os0 + k) = true)
    (Lp : length uPkg = 256) (Lc : length uCore = 256) (Ls : length uSMT = 256)
    (Hlog : strlen (probe_record p logicalPerPack corePerPack
                      (Z.quot logicalPerPack corePerPack) <$>
                    seq 0 (Z.to_nat (numProcessors p))) < PROCDATA_SIZE) :
  let n := Z.to_nat (numProcessors p) in
  let logicalPerCore := Z.quot logicalPerPack corePerPack in
  let rec := probe_record p logicalPerPack corePerPack logicalPerCore in
  exists r : run,
    CPUCount_body p logicalPerPack corePerPack uPkg uCore uSMT out0 os0 = Some r /\
    result r <> USER_CONFIG_ISSUE /\
    totAvailLogical (out r) = Z.of_nat n /\
    totAvailCore (out r) =
      Z.of_nat (distinct (machine_core_keys p logicalPerPack corePerPack
                            logicalPerCore n)) /\
    totPhysPack (out r) =
      Z.of_nat (distinct (machine_pack_keys p logicalPerPack corePerPack
                            logicalPerCore n)) /\
    (1 <= totPhysPack (out r) <= totAvailCore (out r))%Z /\
    (totAvailCore (out r) <= totAvailLogical (out r))%Z /\
    (forall i, i < n ->
       tblPkgID (final r) !! i = Some (packageId (rec i)) /\
       tblCoreID (final r) !! i = Some (coreId (rec i)) /\
       tblSMTID (final r) !! i = Some (smtId (rec i))).
Proof.
  intros n logicalPerCore rec.
  destruct (full_probe_run p logicalPerPack corePerPack uPkg uCore uSMT out0 os0
              Hn Hmask Hcores Hpins Lp Lc Ls Hlog)
    as (st & cores & packs & Hrun & _ & _ & Hslots & Hc & Hp & H1 & H2 & H3).
  eexists. split; [exact Hrun|].
  cbn [result out final with_os totAvailLogical totAvailCore totPhysPack
       tblPkgID tblCoreID tblSMTID].
  split; [apply CPUCount_classify_not_issue|].
  split; [reflexivity|]. split; [rewrite Hc; reflexivity|].
  split; [rewrite Hp; reflexivity|].
  split; [lia|]. split; [fold n in H3; lia|]. exact Hslots.
Qed.

(** X9: in such a probe, a status "HT enabled" is returned only when two
    of the logical processors have the same key [packageId | coreId], and
    a status "HT disabled" only when all keys differ; the probe returns
    when the lines of all processors fit [procData]. *)
Theorem ht_status_and_shared_keys (p : platform) (logicalPerPack corePerPack : Z)
    (uPkg uCore uSMT : list Z) (out0 : outputs) (os0 : os_state)
    (Hn : 1 ≤ Z.to_nat (numProcessors p) ≤ 256)
    (Hmask : forall i, i < Z.to_nat (numProcessors p) ->
                       CPU_ISSET i (affinity os0) = true)
    (Hcores : (0 < corePerPack)%Z)
    (Hpins : forall k, k < Z.to_nat (numProcessors p) ->
                       setaffinity_ok p (calls os0 + k) = true)
    (Lp : length uPkg = 256) (Lc : length uCore = 256) (Ls : length uSMT = 256) :
  let n := Z.to_nat (numProcessors p) in
  let rec := probe_record p logicalPerPack corePerPack
               (Z.quot logicalPerPack corePerPack) in
  let key := fun j => Z.lor (packageId (rec j)) (coreId (rec j)) in
  (strlen (rec <$> seq 0 n) < PROCDATA_SIZE ->
   exists r : run,
     CPUCount_body p logicalPerPack corePerPack uPkg uCore uSMT out0 os0 = Some r) /\
  (forall r : run,
     CPUCount_body p logicalPerPack corePerPack uPkg uCore uSMT out0 os0 = Some r ->
     (result r = SINGLE_CORE_AND_HT_ENABLED \/ result r = MULTI_CORE_AND_HT_ENABLED ->
      exists i j, i < j < n /\ key i = key j) /\
     (result r = SINGLE_CORE_AND_HT_DISABLED \/ result r = MULTI_CORE_AND_HT_DISABLED ->
      forall i j, i < n -> j < n -> key i = key j -> i = j)).
Proof.
  intros n rec key. split.
  { intros Hlog.
    destruct (full_probe_run p logicalPerPack corePerPack uPkg uCore uSMT out0 os0
                Hn Hmask Hcores Hpins Lp Lc Ls Hlog) as (st & cores & packs & Hrun & _).
    eexists. exact Hrun. }
  intros r Hr.
  assert (Hlog : strlen (rec <$> seq 0 n) < PROCDATA_SIZE).
  { pose proof Hr as Hcases.
    apply CPUCount_body_cases in Hcases as
      [[[Hen | Hcpp] _] | (_ & _ & st & cores & packs & Hloop & _)].
    - apply all_configured_enabled_false in Hen as (i & Hi & Hset).
      rewrite Hmask in Hset by exact Hi. discriminate.
    - lia.
    - assert (Hc0 : calls (os (probe_init uPkg uCore uSMT os0)) = calls os0 + 0)
        by (cbn; lia).
      pose proof (probe_loop_log p _ _ _ (calls os0) _ _ _ _ Hc0 Hloop) as [Hpd _].
      change (List.filter _ (seq 0 _))
        with (accepted_pins p (calls os0) (Z.to_nat (numProcessors p))) in Hpd.
      rewrite (accepted_pins_all _ _ _ Hpins) in Hpd. cbn in Hpd.
      apply probe_loop_fits in Hloop; [|cbn; unfold PROCDATA_SIZE; lia].
      rewrite Hpd in Hloop. exact Hloop. }
  destruct (full_probe_run p logicalPerPack corePerPack uPkg uCore uSMT out0 os0
              Hn Hmask Hcores Hpins Lp Lc Ls Hlog)
    as (st & cores & packs & Hrun & _ & _ & _ & Hc & _ & _ & _ & Hle).
  rewrite Hrun in Hr. injection Hr as <-.
  fold n in Hc, Hle.
  set (keys := machine_core_keys p logicalPerPack corePerPack
                 (Z.quot logicalPerPack corePerPack) n) in *.
  assert (Hlen : length keys = n).
  { unfold keys, machine_core_keys. rewrite length_fmap, length_seq. reflexivity. }
  assert (Hlook : forall i x, keys !! i = Some x -> i < n /\ x = key i).
  { intros i x Hi. pose proof (lookup_lt_Some _ _ _ Hi) as Hlt. rewrite Hlen in Hlt.
    split; [exact Hlt|]. unfold keys, machine_core_keys in Hi.
    rewrite list_lookup_fmap, lookup_seq_lt in Hi by exact Hlt.
    cbn in Hi. injection Hi as <-. reflexivity. }
  assert (Hwrap : wrap32 (Z.of_nat cores) = Z.of_nat cores)
    by (apply wrap32_small; lia).
  assert (Hdup : cores < n -> exists i j, i < j < n /\ key i = key j).
  { intros Hlt.
    destruct (dup_of_distinct_lt keys) as (i & j & x & Hij & Hi & Hj);
      [rewrite Hlen, <- Hc; exact Hlt|].
    apply Hlook in Hi as [Hi ->]. apply Hlook in Hj as [Hj Heq].
    exists i, j. split; [lia | exact Heq]. }
  assert (Hinj : n ≤ cores ->
                 forall i j, i < n -> j < n -> key i = key j -> i = j).
  { intros Hge i j Hi Hj Heq.
    assert (Hnd : NoDup keys)
      by (apply NoDup_of_distinct_eq; rewrite Hlen, <- Hc; lia).
    assert (Hget : forall m, m < n -> keys !! m = Some (key m)).
    { intros m Hm. unfold keys, machine_core_keys.
      rewrite list_lookup_fmap, lookup_seq_lt by exact Hm. reflexivity. }
    apply (proj1 (NoDup_alt keys) Hnd i j (key i)).
    - apply Hget, Hi.
    - rewrite Heq. apply Hget, Hj. }
  cbn [result]. fold n.
  unfold CPUCount_classify. rewrite Hwrap.
  destruct (Z.gtb_spec (Z.of_nat n) (Z.of_nat cores)) as [Hgt | Hngt];
    destruct (Z.of_nat cores >? Z.of_nat packs)%Z,
             (Z.quot logicalPerPack corePerPack =? 1)%Z;
    (split; intros [H | H]; try discriminate H);
    first [apply Hdup; lia | apply Hinj; lia].
Qed.

End FullProbeClaims.

Lemma sample_mask_enabled (i : nat) :
  (i < 8)%nat -> CPU_ISSET i (affinity sample_os) = true.
Proof.
  intros Hi. do 8 (destruct i as [|i]; [reflexivity|]). lia.
Qed.

Lemma sample_log_fits :
  (strlen (probe_record machine_ok 4 2 (Z.quot 4 2) <$> seq 0 8) < PROCDATA_SIZE)%nat.
Proof. apply Nat.ltb_lt. vm_compute. reflexivity. Qed.

Lemma full_probe_counts_witness :
  exists r : run,
    CPUCount_body machine_ok 4 2 (stale 0xCC) (stale 0xCC) (stale 0xCC)
      caller_outputs sample_os = Some r /\
    result r <> USER_CONFIG_ISSUE /\
    totAvailLogical (out r) = 8.
Proof.
  destruct (full_probe_counts machine_ok 4 2 (stale 0xCC) (stale 0xCC) (stale 0xCC)
              caller_outputs sample_os)
    as (r & Hrun & Hres & Hlog & _);
    [vm_compute; lia | apply sample_mask_enabled | lia | reflexivity
    | reflexivity | reflexivity | reflexivity | exact sample_log_fits |].
  exists r. split; [exact Hrun|]. split; [exact Hres | exact Hlog].
Defined.

Lemma ht_status_and_shared_keys_witness :
  exists r : run,
    CPUCount_body machine_ok 4 2 (stale 0xCC) (stale 0xCC) (stale 0xCC)
      caller_outputs sample_os = Some r /\
    result r = MULTI_CORE_AND_HT_DISABLED /\
    forall i j, (i < 8)%nat -> (j < 8)%nat ->
       Z.lor (packageId (probe_record machine_ok 4 2 (Z.quot 4 2) i))
             (coreId (probe_record machine_ok 4 2 (Z.quot 4 2) i)) =
       Z.lor (packageId (probe_record machine_ok 4 2 (Z.quot 4 2) j))
             (coreId (probe_record machine_ok 4 2 (Z.quot 4 2) j)) ->
       i = j.
Proof.
  eexists. split; [vm_compute; reflexivity|]. split; [reflexivity|].
  refine (proj2 (proj2 (ht_status_and_shared_keys machine_ok 4 2 (stale 0xCC)
                          (stale 0xCC) (stale 0xCC) caller_outputs sample_os
                          _ _ _ _ _ _ _) _ _) _).
  - vm_compute; lia.
  - apply sample_mask_enabled.
  - lia.
  - reflexivity.
  - reflexivity.
  - reflexivity.
  - reflexivity.
  - vm_compute. reflexivity.
  - right. reflexivity.
Defined.

Section TableBounds.

Local Open Scope nat_scope.

Lemma probe_loop_overflow (p : platform)
    (logicalPerPack corePerPack logicalPerCore : Z) (c0 : nat) :
  forall (steps j : nat) (st : probe),
    calls (os st) = c0 + j ->
    (exists k, j ≤ k < j + steps /\ 256 ≤ k /\ setaffinity_ok p (c0 + k) = true) ->
    probe_loop p logicalPerPack corePerPack logicalPerCore j steps st = None.
Proof.
  induction steps as [|steps IH]; intros j st Hc (k & Hk & Hbig & Hok).
  - lia.
  - rewrite probe_loop_step, Hc.
    destruct (setaffinity_ok p (c0 + j)) eqn:E.
    + destruct (decide _) as [(Hj & _)|]; [|reflexivity].
      apply IH; [cbn; lia|]. exists k. split; [lia|]. split; assumption.
    + apply IH; [cbn; lia|]. exists k.
      assert (k ≠ j) by (intros ->; congruence).
      split; [lia|]. split; assumption.
Qed.

(** X10: the three tables have 256 slots, slot [j] belonging to processor
    [j], and [procData] has 2048 characters for lines of 82 to 96
    characters, one per accepted pin.  With at most 256 configured
    processors and a log that fits, [CPUCount] stays inside them and
    returns, in particular with at most 21 configured processors.  When
    the probe is entered and the pin to a processor numbered 256 or more
    is accepted, or the log does not fit, as it does not when 25 or more
    pins are accepted, it stores past the end of a buffer (undefined
    behaviour: the embedding has no result). *)
Theorem tables_hold_256_processors (p : platform) (logicalPerPack corePerPack : Z)
    (uPkg uCore uSMT : list Z) (out0 : outputs) (os0 : os_state) :
  let n := Z.to_nat (numProcessors p) in
  let log := probe_record p logicalPerPack corePerPack
               (Z.quot logicalPerPack corePerPack) <$>
             accepted_pins p (calls os0) n in
  (n ≤ 256 ->
   length uPkg = 256 -> length uCore = 256 -> length uSMT = 256 ->
   strlen log < PROCDATA_SIZE ->
   is_Some (CPUCount_body p logicalPerPack corePerPack uPkg uCore uSMT out0 os0)) /\
  (n ≤ 21 ->
   length uPkg = 256 -> length uCore = 256 -> length uSMT = 256 ->
   is_Some (CPUCount_body p logicalPerPack corePerPack uPkg uCore uSMT out0 os0)) /\
  ((forall i, i < n -> CPU_ISSET i (affinity os0) = true) ->
   (0 < corePerPack)%Z ->
   (exists k, 256 ≤ k < n /\ setaffinity_ok p (calls os0 + k) = true) ->
   CPUCount_body p logicalPerPack corePerPack uPkg uCore uSMT out0 os0 = None) /\
  ((forall i, i < n -> CPU_ISSET i (affinity os0) = true) ->
   (0 < corePerPack)%Z ->
   PROCDATA_SIZE ≤ strlen log \/ 25 ≤ length (accepted_pins p (calls os0) n) ->
   CPUCount_body p logicalPerPack corePerPack uPkg uCore uSMT out0 os0 = None).
Proof.
  intros n log.
  assert (Hentered : (forall i, i < n -> CPU_ISSET i (affinity os0) = true) ->
            (0 < corePerPack)%Z ->
            CPUCount_body p logicalPerPack corePerPack uPkg uCore uSMT out0 os0 =
            (st ← probe_loop p logicalPerPack corePerPack
                    (Z.quot logicalPerPack corePerPack) 0 n
                    (probe_init uPkg uCore uSMT os0);
             let '(_, os') := misc_sched_setaffinity p (affinity os0) (os st) in
             cores ← countAvailableCores (tblPkgID st) (tblCoreID st)
                       (numLPEnabled st);
             packs ← countPhysicalPacks (tblPkgID st) (numLPEnabled st);
             Some {| result := CPUCount_classify (Z.of_nat cores) (Z.of_nat packs)
                                 (Z.quot logicalPerPack corePerPack)
                                 (Z.of_nat (numLPEnabled st));
                     out := {| totAvailLogical := Z.of_nat (numLPEnabled st);
                               totAvailCore := Z.of_nat cores;
                               totPhysPack := Z.of_nat packs |};
                     final := with_os st os' |})).
  { intros Hmask Hcores. unfold CPUCount_body, misc_sched_getaffinity.
    assert (Hen : all_configured_enabled (affinity os0) 0 n = true).
    { apply all_configured_enabled_true. intros i Hi. apply Hmask. lia. }
    fold n. rewrite Hen. cbn [negb].
    destruct (corePerPack <=? 0)%Z eqn:E; [apply Z.leb_le in E; lia|].
    reflexivity. }
  split.
  { intros Hn Lp Lc Ls Hfit.
    destruct (CPUCount_body_total p logicalPerPack corePerPack uPkg uCore uSMT
                out0 os0 Hn Lp Lc Ls Hfit) as [r Hr].
    exists r. exact Hr. }
  split.
  { intros Hn Lp Lc Ls.
    destruct (CPUCount_body_total p logicalPerPack corePerPack uPkg uCore uSMT
                out0 os0 ltac:(fold n; lia) Lp Lc Ls
                (log_fits_21 p _ _ _ (calls os0) n Hn)) as [r Hr].
    exists r. exact Hr. }
  split.
  { intros Hmask Hcores (k & Hk & Hok).
    rewrite Hentered by assumption.
    rewrite (probe_loop_overflow p _ _ _ (calls os0)); [reflexivity | cbn; lia |].
    exists k. split; [lia|]. split; [lia | exact Hok]. }
  intros Hmask Hcores Hbig.
  assert (Hbig' : PROCDATA_SIZE ≤ strlen log).
  { destruct Hbig as [Hbig | Hbig]; [exact Hbig|].
    pose proof (strlen_bounds p logicalPerPack corePerPack
                  (Z.quot logicalPerPack corePerPack)
                  (accepted_pins p (calls os0) n)) as Hb.
    fold log in Hb. unfold PROCDATA_SIZE. lia. }
  rewrite Hentered by assumption.
  rewrite (probe_loop_log_overflow p _ _ _ (calls os0));
    [reflexivity | cbn; lia | exact Hbig' | cbn; unfold PROCDATA_SIZE; lia].
Qed.

End TableBounds.

Lemma tables_hold_256_processors_witness :
  CPUCount_body machine_257 4 2 (stale 0xCC) (stale 0xCC) (stale 0xCC)
    caller_outputs os_257 = None.
Proof.
  refine (proj1 (proj2 (proj2 (tables_hold_256_processors machine_257 4 2
                                 (stale 0xCC) (stale 0xCC) (stale 0xCC)
                                 caller_outputs os_257))) _ _ _).
  - intros i Hi. unfold CPU_ISSET, os_257, affinity.
    change (Z.to_nat (numProcessors machine_257)) with 257%nat in Hi.
    destruct (decide (i < CPU_SETSIZE)%nat) as [_|Hbig];
      [|unfold CPU_SETSIZE in Hbig; lia].
    rewrite Z.testbit_ones by lia.
    apply andb_true_iff. split; [apply Z.leb_le | apply Z.ltb_lt]; lia.
  - lia.
  - exists 256%nat. split; [vm_compute; lia | reflexivity].
Defined.

Section CpuidFields.

Lemma field_div_mod (x mask sh width : Z) :
  0 <= sh -> 0 <= width -> Z.shiftr mask sh = Z.ones width ->
  Z.shiftr (Z.land x mask) sh = (x / 2 ^ sh) mod 2 ^ width.
Proof.
  intros Hsh Hw Hm.
  rewrite Z.shiftr_land, Hm, Z.land_ones, Z.shiftr_div_pow2 by assumption.
  reflexivity.
Qed.

Lemma land_pow2_zero (d n : Z) :
  0 <= n -> (Z.land d (2 ^ n) = 0 <-> Z.testbit d n = false).
Proof.
  intros Hn. split; intros H.
  - assert (Hb : Z.testbit (Z.land d (2 ^ n)) n = false)
      by (rewrite H; apply Z.bits_0).
    rewrite Z.land_spec, Z.pow2_bits_true, andb_true_r in Hb by exact Hn.
    exact Hb.
  - apply Z.bits_inj'. intros i Hi.
    rewrite Z.land_spec, Z.bits_0, Z.pow2_bits_eqb by exact Hn.
    destruct (Z.eqb_spec n i) as [-> | Hne].
    + rewrite H. reflexivity.
    + apply andb_false_r.
Qed.

Lemma MTSupported_zero (p : platform) (cpu : nat) :
  MTSupported p cpu = 0 <->
  GenuineIntel p cpu = false \/ get_max_input_value p cpu < 1 \/
  Z.testbit (r_edx (cpuid p cpu 1 0)) 28 = false.
Proof.
  unfold MTSupported, MT_BIT.
  destruct (GenuineIntel p cpu); [|split; [left; reflexivity | reflexivity]].
  destruct (get_max_input_value p cpu >=? 1) eqn:E.
  - apply Z.geb_le in E.
    change 268435456 with (2 ^ 28).
    pose proof (land_below (2 ^ 28) (r_edx (cpuid p cpu 1 0)) ltac:(lia)) as Hb.
    rewrite Z.land_comm in Hb.
    rewrite to_int_small by lia.
    rewrite land_pow2_zero by lia.
    split; [intros H; right; right; exact H|].
    intros [H | [H | H]]; [discriminate | lia | exact H].
  - split; [intros _; right; left|reflexivity].
    destruct (Z.geb_spec (get_max_input_value p cpu) 1); [discriminate | lia].
Qed.

(** X11: the CPUID fields as numbers.  The APIC id is bits 31..24 of EBX of
    leaf 1.  [multiCoresPerProcPak] is 1 when the maximum leaf is below 4
    and otherwise bits 31..26 of EAX of leaf 4 plus one, so always 1..64.
    [logicalProcessorsPerPackage] is 1 unless the processor is GenuineIntel
    with leaf 1 and EDX bit 28 set, and then bits 23..16 of EBX (which may
    be 0), so always 0..255. *)
Theorem cpuid_fields (p : platform) (cpu : nat) :
  let max := get_max_input_value p cpu in
  let ebx1 := r_ebx (cpuid p cpu 1 0) in
  get_apic_id p cpu = (ebx1 / 2 ^ 24) mod 2 ^ 8 /\
  1 <= multiCoresPerProcPak p cpu <= 64 /\
  (max < 4 -> multiCoresPerProcPak p cpu = 1) /\
  (4 <= max ->
   multiCoresPerProcPak p cpu = (r_eax (cpuid p cpu 4 0) / 2 ^ 26) mod 2 ^ 6 + 1) /\
  0 <= logicalProcessorsPerPackage p cpu <= 255 /\
  (GenuineIntel p cpu = false \/ max < 1 \/
   Z.testbit (r_edx (cpuid p cpu 1 0)) 28 = false ->
   logicalProcessorsPerPackage p cpu = 1) /\
  (GenuineIntel p cpu = true -> 1 <= max ->
   Z.testbit (r_edx (cpuid p cpu 1 0)) 28 = true ->
   logicalProcessorsPerPackage p cpu = (ebx1 / 2 ^ 16) mod 2 ^ 8).
Proof.
  intros max ebx1.
  split.
  { unfold get_apic_id, INITIAL_APIC_ID_BITS.
    apply (field_div_mod _ _ 24 8); [lia | lia | reflexivity]. }
  split; [apply multiCoresPerProcPak_range|].
  split.
  { intros Hlt. unfold multiCoresPerProcPak. fold max.
    destruct (Z.geb_spec max 4); [lia | reflexivity]. }
  split.
  { intros Hge. unfold multiCoresPerProcPak, CORES_PER_PROCPAK. fold max.
    destruct (Z.geb_spec max 4); [|lia].
    rewrite (field_div_mod _ _ 26 6) by (lia || reflexivity).
    pose proof (Z.mod_pos_bound (r_eax (cpuid p cpu 4 0) / 2 ^ 26) (2 ^ 6)
                  ltac:(lia)) as Hb.
    rewrite wrap32_small by lia. apply to_int_small. lia. }
  split; [apply logicalProcessorsPerPackage_range|].
  split.
  { intros H. apply MTSupported_zero in H.
    unfold logicalProcessorsPerPackage. rewrite H. reflexivity. }
  intros Hg Hmax Hbit.
  unfold logicalProcessorsPerPackage, NUM_LOGICAL_BITS.
  destruct (Z.eqb_spec (MTSupported p cpu) 0) as [Hz | Hnz].
  { apply MTSupported_zero in Hz as [H | [H | H]]; [congruence | fold max in H; lia | congruence]. }
  fold ebx1. rewrite (field_div_mod _ _ 16 8) by (lia || reflexivity).
  pose proof (Z.mod_pos_bound (ebx1 / 2 ^ 16) (2 ^ 8) ltac:(lia)) as Hb.
  apply to_int_small. lia.
Qed.

End CpuidFields.

Lemma cpuid_fields_witness :
  logicalProcessorsPerPackage machine_ok 0 =
  (r_ebx (cpuid machine_ok 0 1 0) / 2 ^ 16) mod 2 ^ 8.
Proof.
  refine (proj2 (proj2 (proj2 (proj2 (proj2 (proj2
            (cpuid_fields machine_ok 0)))))) _ _ _);
    [reflexivity | vm_compute; discriminate | reflexivity].
Defined.

Section Report.

Lemma status_code_range (s : status) :
  0 <= status_code s <= 6 /\ (status_code s = 0 <-> s = USER_CONFIG_ISSUE).
Proof.
  destruct s; cbn; (split; [lia|]); split; (discriminate || reflexivity || lia).
Qed.

Lemma printAttributes_exits (sysAttributes totPhysPack : Z) :
  ~ (1 <= sysAttributes <= 6) ->
  snd (printAttributes sysAttributes totPhysPack) = Some 1 /\
  length (fst (printAttributes sysAttributes totPhysPack)) = 2%nat /\
  last (fst (printAttributes sysAttributes totPhysPack)) =
    Some (say (if sysAttributes =? 0 then user_config_message
               else "Error: Unexpected return value.\n")).
Proof.
  intros H. unfold printAttributes. cbn [status_code].
  repeat match goal with
         | |- context [sysAttributes =? ?c] =>
             destruct (Z.eqb_spec sysAttributes c); [lia|]
         end.
  destruct (sysAttributes =? 0); (split; [|split]); reflexivity.
Qed.

Lemma printAttributes_returns (sysAttributes totPhysPack : Z) :
  1 <= sysAttributes <= 6 ->
  snd (printAttributes sysAttributes totPhysPack) = None /\
  last (fst (printAttributes sysAttributes totPhysPack)) =
    Some (if totPhysPack >? 1 then say "Yes\n" else say "No\n") /\
  length (fst (printAttributes sysAttributes totPhysPack)) =
    (if sysAttributes =? 3 then 4%nat else 3%nat).
Proof.
  intros H.
  assert (Hc : sysAttributes = 1 \/ sysAttributes = 2 \/ sysAttributes = 3 \/
               sysAttributes = 4 \/ sysAttributes = 5 \/ sysAttributes = 6) by lia.
  destruct Hc as [-> | [-> | [-> | [-> | [-> | ->]]]]];
    (split; [reflexivity|]); split; reflexivity.
Qed.

(** X12: [printAttributes] first prints the "Capabilities" heading.  For a
    status outside 1..6 (the configuration issue 0 or an unknown value) it
    prints one message and calls [exit(1)]; for 1..6 it returns after
    printing "Yes" when [totPhysPack > 1] and "No" otherwise.  Every status
    prints one capability block except [SINGLE_CORE_AND_HT_DISABLED], which
    has no [break]: its "Disabled" block is followed by the "Enabled" block
    of [SINGLE_CORE_AND_HT_ENABLED]. *)
Theorem printAttributes_behaviour (sysAttributes totPhysPack : Z) :
  let calls := fst (printAttributes sysAttributes totPhysPack) in
  let exited := snd (printAttributes sysAttributes totPhysPack) in
  head calls = Some (say "\nCapabilities:\n\n") /\
  (exited = Some 1 <-> ~ (1 <= sysAttributes <= 6)) /\
  (exited = None <-> 1 <= sysAttributes <= 6) /\
  (1 <= sysAttributes <= 6 ->
   last calls = Some (if totPhysPack >? 1 then say "Yes\n" else say "No\n") /\
   length calls = (if sysAttributes =? 3 then 4%nat else 3%nat)) /\
  fst (printAttributes (status_code SINGLE_CORE_AND_HT_DISABLED) totPhysPack) =
    [ say "\nCapabilities:\n\n";
      say "\tHyper-Threading Technology: Disabled  \n\tMulti-core: No \n\tMulti-processor: " ]
    ++ drop 1 (fst (printAttributes (status_code SINGLE_CORE_AND_HT_ENABLED)
                      totPhysPack)) /\
  (~ (1 <= sysAttributes <= 6) ->
   length calls = 2%nat /\
   last calls = Some (say (if sysAttributes =? 0 then user_config_message
                           else "Error: Unexpected return value.\n"))).
Proof.
  intros calls exited. subst calls exited.
  destruct (decide (1 <= sysAttributes <= 6)) as [Hin | Hout].
  - destruct (printAttributes_returns sysAttributes totPhysPack Hin)
      as (Hex & Hlast & Hlen).
    split.
    { assert (Hc : sysAttributes = 1 \/ sysAttributes = 2 \/ sysAttributes = 3 \/
                   sysAttributes = 4 \/ sysAttributes = 5 \/ sysAttributes = 6) by lia.
      destruct Hc as [-> | [-> | [-> | [-> | [-> | ->]]]]]; reflexivity. }
    rewrite Hex.
    split; [split; [discriminate | intros H; contradiction]|].
    split; [split; [intros _; exact Hin | reflexivity]|].
    split; [intros _; split; assumption|].
    split; [reflexivity | intros H; contradiction].
  - destruct (printAttributes_exits sysAttributes totPhysPack Hout)
      as (Hex & Hlen & Hlast).
    split.
    { unfold printAttributes. cbn [status_code].
      repeat match goal with
             | |- context [sysAttributes =? ?c] =>
                 destruct (Z.eqb_spec sysAttributes c); [lia|]
             end.
      destruct (sysAttributes =? 0); reflexivity. }
    rewrite Hex.
    split; [split; [intros _; exact Hout | reflexivity]|].
    split; [split; [discriminate | intros H; contradiction]|].
    split; [intros H; contradiction|].
    split; [reflexivity | intros _; split; assumption].
Qed.

End Report.

Lemma printAttributes_behaviour_witness :
  last (fst (printAttributes 3 2)) = Some (say "Yes\n") /\
  length (fst (printAttributes 3 2)) = 4%nat.
Proof.
  refine (proj1 (proj2 (proj2 (proj2 (printAttributes_behaviour 3 2)))) _).
  lia.
Defined.

Section Main.

Local Open Scope nat_scope.

Lemma CPUCount_issue_cases (p : platform) (uPkg uCore uSMT : list Z)
    (out0 : outputs) (os0 : os_state) (r : run) :
  CPUCount p uPkg uCore uSMT out0 os0 = Some r ->
  (result r = USER_CONFIG_ISSUE /\
   exists i, i < Z.to_nat (numProcessors p) /\ CPU_ISSET i (affinity os0) = false) \/
  (result r <> USER_CONFIG_ISSUE /\
   forall i, i < Z.to_nat (numProcessors p) -> CPU_ISSET i (affinity os0) = true).
Proof.
  intros Hrun. unfold CPUCount in Hrun.
  apply CPUCount_body_cases in Hrun as
    [[[Hen | Hcpp] ->] | (Hen & _ & st & cores & packs & _ & _ & _ & ->)].
  - left. split; [reflexivity|]. apply all_configured_enabled_false, Hen.
  - pose proof (multiCoresPerProcPak_range p (entry_cpu p)). lia.
  - right. split; [apply CPUCount_classify_not_issue|].
    intros i Hi. apply (proj1 (all_configured_enabled_true _ _ _) Hen). lia.
Qed.

(** X13: the exit status of the program.  When a configured processor is
    missing from the affinity mask, [main] prints the header, the
    "Capabilities" heading and the configuration error and exits with
    status 1 (the two assertions hold on that path, and nothing else is
    printed).  Whenever [main] exits with a status, the status is 1 in
    that case and 0 when every configured processor was enabled. *)
Theorem main_exit_status (p : platform) (cpu_after : nat)
    (uPkg uCore uSMT : list Z) (os0 : os_state) :
  ((exists i, i < Z.to_nat (numProcessors p) /\
              CPU_ISSET i (affinity os0) = false) ->
   main p cpu_after uPkg uCore uSMT os0 =
     Some (printHeader ++
             [say "\nCapabilities:\n\n"; say user_config_message],
           Exits 1)) /\
  (forall (o : list printf_call) (code : Z),
      main p cpu_after uPkg uCore uSMT os0 = Some (o, Exits code) ->
      (code = 1%Z /\
       exists i, i < Z.to_nat (numProcessors p) /\
                 CPU_ISSET i (affinity os0) = false) \/
      (code = 0%Z /\
       forall i, i < Z.to_nat (numProcessors p) ->
                 CPU_ISSET i (affinity os0) = true)).
Proof.
  pose proof (multiCoresPerProcPak_range p cpu_after) as Hcpp.
  pose proof (logicalProcessorsPerPackage_range p cpu_after) as Hlpp.
  split.
  - intros Hmiss. apply all_configured_enabled_false in Hmiss.
    unfold main, CPUCount, CPUCount_body, misc_sched_getaffinity.
    rewrite Hmiss. cbn [negb mbind option_bind result out totPhysPack
                        totAvailCore totAvailLogical status_code].
    destruct (Z.geb_spec (1 * multiCoresPerProcPak p cpu_after) 1%Z); [|lia].
    destruct (Z.geb_spec (1 * logicalProcessorsPerPackage p cpu_after) 0%Z); [|lia].
    reflexivity.
  - intros o code Hmain. unfold main in Hmain.
    destruct (CPUCount p uPkg uCore uSMT _ os0) as [r|] eqn:Hrun; [|discriminate].
    cbn [mbind option_bind] in Hmain.
    destruct (negb _); [discriminate|].
    destruct (negb _); [discriminate|].
    pose proof (status_code_range (result r)) as [Hrange Hzero].
    destruct (CPUCount_issue_cases _ _ _ _ _ _ _ Hrun) as [[Hres Hmiss] | [Hres Hall]].
    + left. rewrite Hres in Hmain. cbn in Hmain. injection Hmain as _ <-.
      split; [reflexivity | exact Hmiss].
    + right.
      assert (Hin : (1 <= status_code (result r) <= 6)%Z).
      { destruct (Z.eq_dec (status_code (result r)) 0%Z) as [Hz | Hnz]; [|lia].
        apply Hzero in Hz. contradiction. }
      destruct (printAttributes_returns (status_code (result r))
                  (totPhysPack (out r)) Hin) as [Hex _].
      destruct (printAttributes (status_code (result r)) (totPhysPack (out r)))
        as [attributes exited].
      cbn in Hex. subst exited. injection Hmain as _ <-.
      split; [reflexivity | exact Hall].
Qed.

End Main.

Lemma main_exit_status_witness :
  main machine_ok 0 (stale 0xCC) (stale 0xCC) (stale 0xCC)
    {| affinity := 0xf7; calls := 0 |} =
  Some (printHeader ++ [say "\nCapabilities:\n\n"; say user_config_message],
        Exits 1).
Proof.
  refine (proj1 (main_exit_status machine_ok 0 (stale 0xCC) (stale 0xCC)
                   (stale 0xCC) {| affinity := 0xf7; calls := 0 |}) _).
  exists 3%nat. split; [vm_compute; lia | reflexivity].
Defined.

Section FeatureReport.

Lemma to_int_testbit (reg n : Z) :
  0 <= reg < 2 ^ 32 -> 0 <= n < 32 ->
  Z.testbit (to_int reg) n = Z.testbit reg n.
Proof.
  intros Hr Hn. unfold to_int. destruct (reg <? 2 ^ 31); [reflexivity|].
  rewrite <- (Z.mod_pow2_bits_low (reg - 2 ^ 32) 32 n) by lia.
  replace (reg - 2 ^ 32) with (reg + (-1) * 2 ^ 32) by lia.
  rewrite Z.mod_add by lia. rewrite Z.mod_small by lia. reflexivity.
Qed.

Lemma sign_mask_zero (x : Z) :
  - 2 ^ 31 <= x < 2 ^ 31 ->
  (Z.land x (- 2 ^ 31) = 0 <-> Z.testbit x 31 = false).
Proof.
  intros Hx. change (- 2 ^ 31) with (Z.lnot (Z.ones 31)). split; intros H.
  - assert (Hb : Z.testbit (Z.land x (Z.lnot (Z.ones 31))) 31 = false)
      by (rewrite H; apply Z.bits_0).
    rewrite Z.land_spec, Z.lnot_spec, Z.testbit_ones in Hb by lia.
    cbn in Hb. rewrite andb_true_r in Hb. exact Hb.
  - assert (Hnn : 0 <= x).
    { destruct (Z.neg_nonneg_cases x) as [Hneg | Hnn]; [|exact Hnn]. exfalso.
      assert (Ht : Z.testbit x 31 = true); [|congruence].
      apply Z.bits_above_log2_neg; [exact Hneg|].
      destruct (Z.eq_dec x (-1)) as [-> | Hne]; [vm_compute; reflexivity|].
      assert (Hpos : 0 < Z.pred (- x)) by (unfold Z.pred; lia).
      apply (proj1 (Z.log2_lt_pow2 (Z.pred (- x)) 31 Hpos)).
      unfold Z.pred. lia. }
    apply Z.bits_inj'. intros i Hi.
    rewrite Z.land_spec, Z.lnot_spec, Z.testbit_ones, Z.bits_0 by lia.
    destruct (Z.lt_ge_cases i 31) as [Hlt | Hge].
    + destruct (Z.leb_spec 0 i), (Z.ltb_spec i 31); try lia;
        cbn; apply andb_false_r.
    + rewrite (Z.bits_above_log2 x i); [reflexivity | exact Hnn |].
      destruct (Z.eq_dec x 0) as [-> | Hne]; [cbn; lia|].
      apply Z.lt_le_trans with 31; [|exact Hge].
      apply (proj1 (Z.log2_lt_pow2 x 31 ltac:(lia))). lia.
Qed.

(** The flag tests read the named bit, bit 31 (the sign of the [int])
    included. *)
Lemma CPUInfo_bit_testbit (reg n : Z) :
  0 <= reg < 2 ^ 32 -> 0 <= n < 32 -> CPUInfo_bit reg n = Z.testbit reg n.
Proof.
  intros Hr Hn. unfold CPUInfo_bit.
  rewrite <- (to_int_testbit reg n Hr Hn).
  assert (Hx : - 2 ^ 31 <= to_int reg < 2 ^ 31).
  { unfold to_int. destruct (Z.ltb_spec reg (2 ^ 31)); lia. }
  rewrite Z.shiftl_1_l.
  assert (Hp : 0 < 2 ^ n <= 2 ^ 31).
  { split; [apply Z.pow_pos_nonneg; lia|]. apply Z.pow_le_mono_r; lia. }
  rewrite wrap32_small by lia.
  destruct (Z.eq_dec n 31) as [-> | Hne].
  - change (to_int (2 ^ 31)) with (- 2 ^ 31).
    destruct (Z.testbit (to_int reg) 31) eqn:E.
    + destruct (Z.eqb_spec (Z.land (to_int reg) (- 2 ^ 31)) 0) as [H0 | H0];
        [|reflexivity].
      apply sign_mask_zero in H0; [congruence | exact Hx].
    + apply (sign_mask_zero _ Hx) in E. rewrite E. reflexivity.
  - assert (Hlt : 2 ^ n < 2 ^ 31) by (apply Z.pow_lt_mono_r; lia).
    rewrite (to_int_small (2 ^ n)) by lia.
    destruct (Z.testbit (to_int reg) n) eqn:E.
    + destruct (Z.eqb_spec (Z.land (to_int reg) (2 ^ n)) 0) as [H0 | H0];
        [|reflexivity].
      apply land_pow2_zero in H0; [congruence | lia].
    + apply land_pow2_zero in E; [|lia]. rewrite E. reflexivity.
Qed.

Lemma fmap_named (b : bool) (text : string) :
  say <$> named b text = when b text.
Proof. destruct b; reflexivity. Qed.

Lemma elem_of_named (x : string) (b : bool) (text : string) (rest : list string) :
  x ∈ named b text ++ rest <-> (b = true /\ x = text) \/ x ∈ rest.
Proof.
  destruct b; cbn.
  - rewrite elem_of_cons. split; intros [H | H]; auto. destruct H; auto.
  - split; [auto|]. intros [[H _] | H]; [discriminate | exact H].
Qed.

Lemma sublist_named (b : bool) (text : string) (l k : list string) :
  sublist l k -> sublist (named b text ++ l) (text :: k).
Proof.
  intros H. destruct b; cbn; [apply sublist_skip | apply sublist_cons]; exact H.
Qed.

End FeatureReport.

Section FeatureReportClaims.

(** X14: the report of cpuid.cpp is the brand string, then feature names
    in the fixed order of the tests (each at most once), then the core
    count.  "3DNow!" and "HTT" are printed exactly when bit 31 of EDX of
    leaf [0x80000001], respectively bit 28 of EDX of leaf 1, is set.
    "x86-64" and "EM64T" both read bit 29 of that EDX and are never printed
    together: "x86-64" needs 3DNow!, "EM64T" its absence.  Without 3DNow!
    the core count is bits 31..26 of EAX of leaf 4 plus one, from 1 to 64. *)
Theorem cpuid_report_features (cpuinfo : Z -> cpuid_regs) :
  let edx81 := r_edx (cpuinfo 0x80000001) in
  let edx1 := r_edx (cpuinfo 1) in
  exists (lines : list string) (core : Z),
    cpuid_report cpuinfo =
      Printf "\n%s\n" [BrandArg [cpuinfo 0x80000002; cpuinfo 0x80000003;
                                 cpuinfo 0x80000004]]
        :: (say <$> lines) ++ [Printf "\nCore %d\n" [IntArg core]] /\
    sublist lines feature_names /\
    ~ ("\nx86-64" ∈ lines /\ "\nEM64T" ∈ lines) /\
    ("\nx86-64" ∈ lines -> "\n3DNow!" ∈ lines) /\
    (0 <= edx81 < 2 ^ 32 ->
     ("\n3DNow!" ∈ lines <-> Z.testbit edx81 31 = true) /\
     ("\nx86-64" ∈ lines <->
      Z.testbit edx81 31 = true /\ Z.testbit edx81 29 = true) /\
     ("\nEM64T" ∈ lines <->
      Z.testbit edx81 31 = false /\ Z.testbit edx81 29 = true)) /\
    (0 <= edx1 < 2 ^ 32 -> ("\nHTT" ∈ lines <-> Z.testbit edx1 28 = true)) /\
    ("\n3DNow!" ∉ lines ->
     core = (r_eax (cpuinfo 4) / 2 ^ 26) mod 2 ^ 6 + 1 /\ 1 <= core <= 64).
Proof.
  intros edx81 edx1. unfold cpuid_report. fold edx81 edx1.
  set (b3 := CPUInfo_bit edx81 31).
  set (b29 := CPUInfo_bit edx81 29).
  set (bHTT := CPUInfo_bit edx1 28).
  set (core3 := to_int (wrap32 (to_int (r_ecx (cpuinfo 0x80000008)) + 1))).
  set (core4 := to_int (wrap32
                  (Z.shiftr (Z.land (r_eax (cpuinfo 4)) 0xFC000000) 26 + 1))).
  cbv zeta.
  eexists (named b3 _ ++ named _ _ ++ named _ _ ++ named _ _ ++ named _ _
             ++ named _ _ ++ named _ _ ++ named _ _ ++ named bHTT _
             ++ named (if b3 then b29 else false) _ ++ named _ _
             ++ named (if b3 then false else b29) _ ++ named _ _),
          (if b3 then core3 else core4).
  split.
  { rewrite !fmap_app, !fmap_named, <- !app_assoc. reflexivity. }
  split.
  { unfold feature_names. do 12 apply sublist_named.
    rewrite <- (app_nil_r (named _ _)). apply sublist_named. constructor. }
  match goal with |- context [_ ∈ ?l] => set (lines := l) end.
  assert (Hin : forall x, x ∈ lines <->
     (b3 = true /\ x = "\n3DNow!") \/
     (CPUInfo_bit edx81 30 = true /\ x = "\n3DNow!2") \/
     (CPUInfo_bit edx1 23 = true /\ x = "\nMMX") \/
     (CPUInfo_bit edx81 22 = true /\ x = "\nMMXExt") \/
     (CPUInfo_bit edx1 25 = true /\ x = "\nSSE") \/
     (CPUInfo_bit edx1 26 = true /\ x = "\nSSE2") \/
     (CPUInfo_bit (r_ecx (cpuinfo 1)) 0 = true /\ x = "\nSSE3") \/
     (CPUInfo_bit (r_ecx (cpuinfo 1)) 9 = true /\ x = "\nSSSE3") \/
     (bHTT = true /\ x = "\nHTT") \/
     ((if b3 then b29 else false) = true /\ x = "\nx86-64") \/
     (CPUInfo_bit (r_ecx (cpuinfo 1)) 30 = true /\ x = "\nIA64") \/
     ((if b3 then false else b29) = true /\ x = "\nEM64T") \/
     (CPUInfo_bit (r_ecx (cpuinfo 1)) 7 = true /\ x = "\nSpeedStep") \/ False).
  { intros x. subst lines. rewrite !elem_of_named.
    rewrite <- (app_nil_r (named _ "\nSpeedStep")), elem_of_named, elem_of_nil.
    reflexivity. }
  assert (H3 : "\n3DNow!" ∈ lines <-> b3 = true).
  { rewrite Hin. split.
    - intros H.
      repeat match type of H with
             | _ \/ _ => destruct H as [[Hb He] | H];
                         [first [discriminate He | exact Hb]|]
             end.
      contradiction.
    - intros H. left. split; [exact H | reflexivity]. }
  assert (H64 : "\nx86-64" ∈ lines <-> (if b3 then b29 else false) = true).
  { rewrite Hin. split.
    - intros H.
      repeat match type of H with
             | _ \/ _ => destruct H as [[Hb He] | H];
                         [first [discriminate He | exact Hb]|]
             end.
      contradiction.
    - intros H. do 9 right. left. split; [exact H | reflexivity]. }
  assert (HEM : "\nEM64T" ∈ lines <-> (if b3 then false else b29) = true).
  { rewrite Hin. split.
    - intros H.
      repeat match type of H with
             | _ \/ _ => destruct H as [[Hb He] | H];
                         [first [discriminate He | exact Hb]|]
             end.
      contradiction.
    - intros H. do 11 right. left. split; [exact H | reflexivity]. }
  assert (HHT : "\nHTT" ∈ lines <-> bHTT = true).
  { rewrite Hin. split.
    - intros H.
      repeat match type of H with
             | _ \/ _ => destruct H as [[Hb He] | H];
                         [first [discriminate He | exact Hb]|]
             end.
      contradiction.
    - intros H. do 8 right. left. split; [exact H | reflexivity]. }
  clearbody lines.
  split.
  { rewrite H64, HEM. destruct b3; intros [Ha Hb]; discriminate. }
  split.
  { rewrite H64, H3. destruct b3; [reflexivity | discriminate]. }
  split.
  { intros Hr. rewrite H3, H64, HEM. subst b3 b29.
    rewrite !CPUInfo_bit_testbit by lia.
    destruct (Z.testbit edx81 31), (Z.testbit edx81 29);
      repeat split; intros; try discriminate; try tauto;
      match goal with H : _ /\ _ |- _ => destruct H; discriminate end. }
  split.
  { intros Hr. rewrite HHT. subst bHTT.
    rewrite CPUInfo_bit_testbit by lia. reflexivity. }
  intros Hno. rewrite H3 in Hno.
  destruct b3; [contradiction Hno; reflexivity|].
  subst core4.
  rewrite (field_div_mod _ _ 26 6) by (lia || reflexivity).
  pose proof (Z.mod_pos_bound (r_eax (cpuinfo 4) / 2 ^ 26) (2 ^ 6) ltac:(lia)) as Hb.
  rewrite wrap32_small by lia. rewrite to_int_small by lia. lia.
Qed.

End FeatureReportClaims.

Lemma getSubID_is_field_witness :
  getSubID 0xB5 4 1 = Z.land 0xB5 (field_mask (find_maskwidth 4) 1).
Proof.
  refine (proj1 (getSubID_is_field 0xB5 4 1 _ _ _));
    [lia | lia | vm_compute; reflexivity].
Defined.

Lemma cpuid_report_features_witness :
  exists (lines : list string) (core : Z),
    cpuid_report sample_cpuinfo =
      Printf "\n%s\n" [BrandArg [sample_cpuinfo 0x80000002;
                                 sample_cpuinfo 0x80000003;
                                 sample_cpuinfo 0x80000004]]
        :: (say <$> lines) ++ [Printf "\nCore %d\n" [IntArg core]] /\
    ("\nEM64T" ∈ lines <->
     Z.testbit (r_edx (sample_cpuinfo 0x80000001)) 31 = false /\
     Z.testbit (r_edx (sample_cpuinfo 0x80000001)) 29 = true).
Proof.
  destruct (cpuid_report_features sample_cpuinfo)
    as (lines & core & Heq & _ & _ & _ & Hbits & _).
  exists lines, core. split; [exact Heq|].
  refine (proj2 (proj2 (Hbits _))). vm_compute. split; [discriminate | reflexivity].
Defined.
